(** * Santipur NDVI trend script: a model of [Santipur_ndvi.js]

    The script is an Earth Engine client program: every JS function builds
    a server-side raster computation.  The development has three layers.

    - [Result]: the error type of a server-side evaluation.
    - [EE]: a functional model of the platform operators the script calls
      (images as named rasters with a validity mask, image collections as
      lists, reducers, region reductions).  Pixel values are rationals;
      the platform's doubles are idealised, and a raster is a field
      sampled at a point rather than a resampled pixel pyramid.
    - [Script]: the script itself, one definition per JS function or
      top-level variable, parameterised over what only the platform knows
      (the image catalog, the pixel grid of a geometry at a scale, the
      scale chosen under [bestEffort], the area of a pixel). *)

From Stdlib Require Import ZArith QArith Qminmax Qround Lqa Lia List String Bool DecimalString Sorted.
Import ListNotations.

Local Open Scope string_scope.
Local Open Scope Q_scope.

(* ================================================================== *)
(** ** Errors of a server-side evaluation *)

Module Result.

Inductive result (A : Type) : Type :=
| OK (a : A)
| Err (msg : string).
Arguments OK {A} a.
Arguments Err {A} msg.

Definition bind {A B} (m : result A) (k : A -> result B) : result B :=
  match m with
  | OK a => k a
  | Err e => Err e
  end.

(** A method call on a computed object: [m.f()] and [m1.op(m2)]. *)
Definition fmap {A B} (f : A -> B) (m : result A) : result B :=
  bind m (fun a => OK (f a)).

Definition bind2 {A B C} (op : A -> B -> result C) (m1 : result A) (m2 : result B)
  : result C :=
  bind m1 (fun a => bind m2 (fun b => op a b)).

(** [collection.map(f)]: the whole evaluation fails as soon as [f] fails
    on one element. *)
Fixpoint mapM {A B} (f : A -> result B) (l : list A) : result (list B) :=
  match l with
  | [] => OK []
  | a :: l' =>
      match f a with
      | OK b =>
          match mapM f l' with
          | OK bs => OK (b :: bs)
          | Err e => Err e
          end
      | Err e => Err e
      end
  end.

End Result.
Import Result.

Notation "x <- m ;; k" := (bind m (fun x => k))
  (at level 61, m at next level, right associativity).

(* ================================================================== *)
(** ** The platform operators *)

Module EE.

(** *** Geometry *)

Definition Point : Type := Q * Q.

(** [ee.Geometry.Rectangle([xMin, yMin, xMax, yMax])]. *)
Inductive Geometry : Type :=
| Rectangle (xMin yMin xMax yMax : Q).

Definition contains (g : Geometry) (p : Point) : bool :=
  match g with
  | Rectangle x0 y0 x1 y1 =>
      Qle_bool x0 (fst p) && Qle_bool (fst p) x1 &&
      Qle_bool y0 (snd p) && Qle_bool (snd p) y1
  end.

Definition intersects (g h : Geometry) : bool :=
  match g, h with
  | Rectangle a0 b0 a1 b1, Rectangle c0 d0 c1 d1 =>
      Qle_bool a0 c1 && Qle_bool c0 a1 && Qle_bool b0 d1 && Qle_bool d0 b1
  end.

(** *** Dates *)

Record Date : Type := mkDate { year : Z; month : Z; day : Z; millis : Z }.

(** [ee.Date.fromYMD(y, m, d)]: midnight of that day. *)
Definition fromYMD (y m d : Z) : Date := mkDate y m d 0.

(** [date.advance(n, 'year')]; the script only advances the first of
    January, so no day of month has to be clamped. *)
Definition advanceYear (n : Z) (d : Date) : Date :=
  mkDate (year d + n) (month d) (day d) (millis d).

Definition dateKey (d : Date) : list Z := [year d; month d; day d; millis d].

Fixpoint lexLt (a b : list Z) : bool :=
  match a, b with
  | x :: a', y :: b' => (x <? y)%Z || ((x =? y)%Z && lexLt a' b')
  | _, _ => false
  end.

Definition dateLt (a b : Date) : bool := lexLt (dateKey a) (dateKey b).
Definition dateLe (a b : Date) : bool := negb (dateLt b a).

(** *** Images *)

(** A raster gives each point a value, or [None] where it is masked. *)
Definition Raster : Type := Point -> option Q.

Record Image : Type := mkImage {
  bands : list (string * Raster);
  properties : list (string * Q);
  footprint : option Geometry;      (* [None]: unbounded *)
  time_start : option Date
}.

Definition withBands (img : Image) (bs : list (string * Raster)) : Image :=
  mkImage bs (properties img) (footprint img) (time_start img).

Definition bandNames (img : Image) : list string := map fst (bands img).

(** [list.contains(name)]. *)
Definition containsName (l : list string) (name : string) : bool :=
  existsb (String.eqb name) l.

Fixpoint lookup {A} (name : string) (l : list (string * A)) : option A :=
  match l with
  | [] => None
  | (k, v) :: l' => if String.eqb name k then Some v else lookup name l'
  end.

(** The value of band [name] of [img] at [p]; [None] when the pixel is
    masked or the band does not exist. *)
Definition sample (name : string) (img : Image) (p : Point) : option Q :=
  match lookup name (bands img) with
  | Some r => r p
  | None => None
  end.

(** The raster of band [name], masked everywhere when there is no such
    band. *)
Definition band (name : string) (img : Image) : Raster :=
  match lookup name (bands img) with
  | Some r => r
  | None => fun _ => None
  end.

(** [image.select(name)]: an error when the band is missing. *)
Definition select (name : string) (img : Image) : result Image :=
  match lookup name (bands img) with
  | Some r => OK (withBands img [(name, r)])
  | None => Err ("Image.select: band '" ++ name ++ "' not found")
  end.

(** [image.select([n1, n2, ...])]: the bands in the order asked for. *)
Definition selectBands (names : list string) (img : Image) : result Image :=
  bs <- mapM (fun n =>
          match lookup n (bands img) with
          | Some r => OK (n, r)
          | None => Err ("Image.select: band '" ++ n ++ "' not found")
          end) names ;;
  OK (withBands img bs).

(** [image.rename(name)] on a one-band image. *)
Definition rename (name : string) (img : Image) : result Image :=
  match bands img with
  | [(_, r)] => OK (withBands img [(name, r)])
  | _ => Err "Image.rename: number of names must match number of bands"
  end.

(** [ee.Image.constant(c)]. *)
Definition constant (c : Q) : Image :=
  mkImage [("constant", fun _ => Some c)] [] None None.

Definition mapRaster (f : Q -> Q) (r : Raster) : Raster :=
  fun p => option_map f (r p).

(** A raster operator with a number as its argument, at every band. *)
Definition mapBands (f : Q -> Q) (img : Image) : Image :=
  withBands img (map (fun b => (fst b, mapRaster f (snd b))) (bands img)).

Definition ofBool (b : bool) : Q := if b then 1 else 0.
Definition truthy (v : Q) : bool := negb (Qeq_bool v 0).

Definition eq (c : Q) : Image -> Image := mapBands (fun v => ofBool (Qeq_bool v c)).
Definition neq (c : Q) : Image -> Image := mapBands (fun v => ofBool (negb (Qeq_bool v c))).
Definition lt (c : Q) : Image -> Image := mapBands (fun v => ofBool (negb (Qle_bool c v))).
Definition gt (c : Q) : Image -> Image := mapBands (fun v => ofBool (negb (Qle_bool v c))).
Definition bitwiseAnd (c : Z) : Image -> Image :=
  mapBands (fun v => inject_Z (Z.land (Qfloor v) c)).

(** Two rasters combined point by point: the result is masked wherever
    one of the inputs is. *)
Definition zipRaster (f : Q -> Q -> Q) (r s : Raster) : Raster :=
  fun p =>
    match r p, s p with
    | Some a, Some b => Some (f a b)
    | _, _ => None
    end.

(** A binary image operator.  A one-band operand is used against every
    band of the other; otherwise the bands are paired in order and named
    after the left operand. *)
Definition binop (f : Q -> Q -> Q) (a b : Image) : result Image :=
  match bands a, bands b with
  | _, [(_, s)] =>
      OK (withBands a (map (fun x => (fst x, zipRaster f (snd x) s)) (bands a)))
  | [(_, r)], _ =>
      OK (withBands a (map (fun y => (fst y, zipRaster f r (snd y))) (bands b)))
  | _, _ =>
      if Nat.eqb (List.length (bands a)) (List.length (bands b)) then
        OK (withBands a (map (fun xy => (fst (fst xy), zipRaster f (snd (fst xy)) (snd (snd xy))))
                             (combine (bands a) (bands b))))
      else Err "Image: incompatible number of bands"
  end.

Definition or : Image -> Image -> result Image :=
  binop (fun a b => ofBool (truthy a || truthy b)).
Definition and : Image -> Image -> result Image :=
  binop (fun a b => ofBool (truthy a && truthy b)).
Definition multiply : Image -> Image -> result Image := binop Qmult.

(** [image.updateMask(mask)]: a pixel stays valid when it was valid and
    the mask is valid and non-zero there. *)
Definition maskRaster (r m : Raster) : Raster :=
  fun p =>
    match r p, m p with
    | Some v, Some k => if truthy k then Some v else None
    | _, _ => None
    end.

Definition updateMask (img mask : Image) : result Image :=
  match bands mask with
  | [(_, m)] =>
      OK (withBands img (map (fun x => (fst x, maskRaster (snd x) m)) (bands img)))
  | ms =>
      if Nat.eqb (List.length (bands img)) (List.length ms) then
        OK (withBands img (map (fun xy => (fst (fst xy), maskRaster (snd (fst xy)) (snd (snd xy))))
                               (combine (bands img) ms)))
      else Err "Image.updateMask: incompatible number of bands"
  end.

(** [image.normalizedDifference([b1, b2])]: [(b1 - b2) / (b1 + b2)] in a
    band named [nd]; a pixel that is negative in either band is masked,
    and the properties of the input are not kept.  A zero sum gives 0,
    as the platform's division does. *)
Definition nd (a b : Q) : option Q :=
  if Qle_bool 0 a && Qle_bool 0 b then Some ((a - b) / (a + b)) else None.

Definition ndRaster (r s : Raster) : Raster :=
  fun p =>
    match r p, s p with
    | Some a, Some b => nd a b
    | _, _ => None
    end.

Definition normalizedDifference (b1 b2 : string) (img : Image) : result Image :=
  match lookup b1 (bands img), lookup b2 (bands img) with
  | Some r, Some s => OK (mkImage [("nd", ndRaster r s)] [] (footprint img) None)
  | None, _ => Err ("Image.normalizedDifference: band '" ++ b1 ++ "' not found")
  | _, None => Err ("Image.normalizedDifference: band '" ++ b2 ++ "' not found")
  end.

Definition natToString (n : nat) : string :=
  NilEmpty.string_of_uint (Nat.to_uint n).

(** The first of [base_k], [base_(k+1)], ... that is not in use. *)
Fixpoint freshName (base : string) (used : list string) (k fuel : nat) : string :=
  let cand := base ++ "_" ++ natToString k in
  match fuel with
  | O => cand
  | S fuel' => if containsName used cand then freshName base used (S k) fuel' else cand
  end.

Definition addBand (bs : list (string * Raster)) (b : string * Raster)
  : list (string * Raster) :=
  let names := map fst bs in
  if containsName names (fst b)
  then bs ++ [(freshName (fst b) names 1 (List.length names), snd b)]
  else bs ++ [b].

(** [dst.addBands(src)] without [overwrite]: the bands of [src] are
    appended, a band whose name is taken gets a numerical suffix; the
    metadata and the footprint are those of [dst]. *)
Definition addBands (dst src : Image) : Image :=
  withBands dst (fold_left addBand (bands src) (bands dst)).

(** [image.clip(g)]: masked outside [g]. *)
Definition clipRaster (g : Geometry) (r : Raster) : Raster :=
  fun p => if contains g p then r p else None.

Definition clip (g : Geometry) (img : Image) : Image :=
  mkImage (map (fun b => (fst b, clipRaster g (snd b))) (bands img))
          (properties img) (Some g) (time_start img).

(** [image.set(key, value)] and [image.get(key)]. *)
Definition set (key : string) (v : Q) (img : Image) : Image :=
  mkImage (bands img)
          ((key, v) :: filter (fun kv => negb (String.eqb key (fst kv))) (properties img))
          (footprint img) (time_start img).

Definition get (key : string) (img : Image) : option Q :=
  lookup key (properties img).

(** *** Image collections *)

Definition ImageCollection : Type := list Image.

(** [collection.filterDate(start, end)]: [start] included, [end] not. *)
Definition inDateRange (start stop : Date) (img : Image) : bool :=
  match time_start img with
  | Some t => dateLe start t && dateLt t stop
  | None => false
  end.

Definition filterDate (start stop : Date) (col : ImageCollection) : ImageCollection :=
  filter (inDateRange start stop) col.

Definition inBounds (g : Geometry) (img : Image) : bool :=
  match footprint img with
  | Some f => intersects f g
  | None => true
  end.

Definition filterBounds (g : Geometry) (col : ImageCollection) : ImageCollection :=
  filter (inBounds g) col.

Definition size (col : ImageCollection) : Z := Z.of_nat (List.length col).

(** [collection.select(name)]. *)
Definition selectAll (name : string) (col : ImageCollection) : result ImageCollection :=
  mapM (select name) col.

Definition selectBandsAll (names : list string) (col : ImageCollection)
  : result ImageCollection :=
  mapM (selectBands names) col.

(** [collection.filter(ee.Filter.eq(key, v)).first()]. *)
Definition firstWhereEq (key : string) (v : Q) (col : ImageCollection) : option Image :=
  find (fun img => match get key img with
                   | Some w => Qeq_bool w v
                   | None => false
                   end) col.

(** *** Reducers *)

Definition Qsum (l : list Q) : Q := fold_right Qplus 0 l.

Fixpoint minList (l : list Q) : option Q :=
  match l with
  | [] => None
  | x :: l' =>
      match minList l' with
      | None => Some x
      | Some m => Some (Qmin x m)
      end
  end.

Definition meanList (l : list Q) : option Q :=
  match l with
  | [] => None
  | _ => Some (Qsum l / inject_Z (Z.of_nat (List.length l)))
  end.

Fixpoint insertSorted (x : Q) (l : list Q) : list Q :=
  match l with
  | [] => [x]
  | y :: l' => if Qle_bool x y then x :: l else y :: insertSorted x l'
  end.

Definition sortQ (l : list Q) : list Q := fold_right insertSorted [] l.

(** The middle value of the sorted inputs, the mean of the two middle
    values when their number is even. *)
Definition medianList (l : list Q) : option Q :=
  let s := sortQ l in
  let n := List.length s in
  match n with
  | O => None
  | _ =>
      if Nat.even n
      then Some ((nth (n / 2 - 1) s 0 + nth (n / 2) s 0) / 2)
      else Some (nth (n / 2) s 0)
  end.

(** The least-squares line [y = scale * x + offset] through the points;
    no output when the [x] do not determine a line. *)
Definition linearFitList (pts : list (Q * Q)) : option (Q * Q) :=
  let n := inject_Z (Z.of_nat (List.length pts)) in
  let sx := Qsum (map fst pts) in
  let sy := Qsum (map snd pts) in
  let sxx := Qsum (map (fun xy => fst xy * fst xy) pts) in
  let sxy := Qsum (map (fun xy => fst xy * snd xy) pts) in
  let d := n * sxx - sx * sx in
  if Qeq_bool d 0 then None
  else
    let scale := (n * sxy - sx * sy) / d in
    Some (scale, (sy - scale * sx) / n).

Module Reducer.
Inductive t : Type := min | mean | sum | median | linearFit.

Definition outputs (r : t) : list string :=
  match r with
  | min => ["min"]
  | mean => ["mean"]
  | sum => ["sum"]
  | median => ["median"]
  | linearFit => ["scale"; "offset"]
  end.

(** The reducers of one input, run on the unmasked inputs. *)
Definition run (r : t) (l : list Q) : option Q :=
  match r with
  | min => minList l
  | mean => meanList l
  | sum => Some (Qsum l)
  | median => medianList l
  | linearFit => None
  end.
End Reducer.

Definition valid (o : option Q) : list Q :=
  match o with
  | Some v => [v]
  | None => []
  end.

Definition nthRaster (k : nat) (img : Image) : Raster :=
  nth k (map snd (bands img)) (fun _ => None).

(** The unmasked values of band number [k] of every image at [p]. *)
Definition valuesAt (k : nat) (col : ImageCollection) (p : Point) : list Q :=
  flat_map (fun img => valid (nthRaster k img p)) col.

(** The points [(x, y)] two-band images give at [p]; an image masked in
    either band there gives none. *)
Definition pairsAt (col : ImageCollection) (p : Point) : list (Q * Q) :=
  flat_map (fun img =>
              match nthRaster 0 img p, nthRaster 1 img p with
              | Some x, Some y => [(x, y)]
              | _, _ => []
              end) col.

Definition sameBandCount (n : nat) (col : ImageCollection) : bool :=
  forallb (fun img => Nat.eqb (List.length (bands img)) n) col.

(** A one-input reducer applied to each band across the images; the
    bands are those of the first image, named by [naming]. *)
Definition reduceBandwise (naming : string -> string) (f : list Q -> option Q)
           (col : ImageCollection) : result Image :=
  match col with
  | [] => OK (mkImage [] [] None None)
  | first :: _ =>
      let n := List.length (bands first) in
      if sameBandCount n col then
        OK (mkImage (map (fun k => (naming (nth k (bandNames first) ""),
                                    fun p => f (valuesAt k col p)))
                         (seq 0 n))
                    [] None None)
      else Err "ImageCollection.reduce: images differ in their bands"
  end.

(** [collection.reduce(reducer)]: the output bands are named
    [band_output]; [linearFit] takes the two bands of each image as
    [x] and [y] and gives the bands [scale] and [offset]. *)
Definition reduce (r : Reducer.t) (col : ImageCollection) : result Image :=
  match r with
  | Reducer.linearFit =>
      if sameBandCount 2 col then
        OK (mkImage [("scale", fun p => option_map fst (linearFitList (pairsAt col p)));
                     ("offset", fun p => option_map snd (linearFitList (pairsAt col p)))]
                    [] None None)
      else Err "Reducer.linearFit: expected 2 inputs"
  | _ =>
      reduceBandwise (fun b => b ++ "_" ++ nth 0 (Reducer.outputs r) "")
                     (Reducer.run r) col
  end.

(** [collection.median()]: the median reducer with the band names kept. *)
Definition median (col : ImageCollection) : result Image :=
  reduceBandwise (fun b => b) (Reducer.run Reducer.median) col.

(** *** Dictionaries, features and charts *)

(** A dictionary of numbers; [None] is [null]. *)
Definition Dictionary : Type := list (string * option Q).

Definition dictGet (key : string) (d : Dictionary) : option Q :=
  match lookup key d with
  | Some v => v
  | None => None
  end.

(** A one-input reducer run, band by band, over the unmasked pixels of
    a list of sample points. *)
Definition reducePixels (r : Reducer.t) (px : list Point) (img : Image) : Dictionary :=
  map (fun b => (fst b, Reducer.run r (flat_map (fun p => valid (snd b p)) px)))
      (bands img).

(** [ee.Feature(geometry, properties)]. *)
Record Feature : Type := mkFeature {
  geometry : option Geometry;
  featureProperties : Dictionary
}.

(** [ui.Chart.feature.byFeature(features, xProperty, yProperties)]: one
    row per feature, the [x] value and one value per series. *)
Record Chart : Type := mkChart {
  rows : list (option Q * list (option Q));
  series : list string;
  title : string
}.

Definition byFeature (fc : list Feature) (xProperty : string)
           (yProperties : list string) : Chart :=
  mkChart (map (fun f => (dictGet xProperty (featureProperties f),
                          map (fun k => dictGet k (featureProperties f)) yProperties))
               fc)
          yProperties "".

Definition setTitle (t : string) (c : Chart) : Chart :=
  mkChart (rows c) (series c) t.

(** *** Lists and branching *)

(** [ee.List.sequence(a, b)]: the integers from [a] to [b], both
    included. *)
Definition sequence (a b : Z) : list Z :=
  map (fun k => (a + Z.of_nat k)%Z) (seq 0 (Z.to_nat (b - a + 1))).

(** [ee.ImageCollection.fromImages(list)]. *)
Definition fromImages (l : list Image) : ImageCollection := l.

Module Algorithms.
(** [ee.Algorithms.If(condition, trueCase, falseCase)]: only the case
    the condition selects is evaluated. *)
Definition If {A} (condition : bool) (trueCase falseCase : result A) : result A :=
  if condition then trueCase else falseCase.
End Algorithms.

End EE.

(* ================================================================== *)
(** ** A small catalog to run the script on *)

Module Example.

Definition tile : EE.Geometry := EE.Rectangle 88 23 89 24.
Definition farTile : EE.Geometry := EE.Rectangle 10 10 11 11.

Definition west (p : EE.Point) : bool := Qle_bool (fst p) 88.45.
Definition flat (v : Q) : EE.Raster := fun _ => Some v.

Definition scene (d : EE.Date) (g : EE.Geometry) (bs : list (string * EE.Raster))
  : EE.Image :=
  EE.mkImage bs [] (Some g) (Some d).

(** June 2018: land and clear in the west, cloud in the east. *)
Definition imgA : EE.Image :=
  scene (EE.mkDate 2018 6 15 1000) tile
        [("B4", flat 1000); ("B8", flat 3000);
         ("SCL", fun p => if west p then Some 4 else Some 9);
         ("QA60", fun p => if west p then Some 0 else Some 1024)].

(** The last millisecond of 2018. *)
Definition imgB : EE.Image :=
  scene (EE.mkDate 2018 12 31 86399999) tile
        [("B4", flat 500); ("B8", flat 1000); ("SCL", flat 4); ("QA60", flat 0)].

(** The first millisecond of 2019. *)
Definition imgC : EE.Image :=
  scene (EE.mkDate 2019 1 1 0) tile
        [("B4", flat 2000); ("B8", flat 2000); ("SCL", flat 5); ("QA60", flat 0)].

(** A 2020 scene elsewhere on the globe. *)
Definition imgD : EE.Image :=
  scene (EE.mkDate 2020 3 1 0) farTile
        [("B4", flat 100); ("B8", flat 900); ("SCL", flat 4); ("QA60", flat 0)].

(** Scenes without the quality bands. *)
Definition imgPlain : EE.Image :=
  scene (EE.mkDate 2021 5 5 0) tile [("B4", flat 700); ("B8", flat 2100)].


(** A scene with the quality band but no scene classification. *)
Definition imgQa : EE.Image :=
  scene (EE.mkDate 2021 5 7 0) tile
        [("B4", flat 700); ("B8", flat 2100);
         ("QA60", fun p => if west p then Some 0 else Some 1024)].

(** A scene with no near-infrared band. *)
Definition imgRed : EE.Image :=
  scene (EE.mkDate 2022 2 2 0) tile [("B4", flat 700); ("SCL", flat 4)].

(** A Landsat scene: cloud bit set in the east, clear in the west. *)
Definition imgL8 : EE.Image :=
  scene (EE.mkDate 2019 7 1 0) tile
        [("SR_B4", flat 9000); ("SR_B5", flat 20000);
         ("QA_PIXEL", fun p => if west p then Some 21824 else Some 21832)].

Definition catalog (id : string) : EE.ImageCollection :=
  if String.eqb id "COPERNICUS/S2_SR" then [imgA; imgB; imgC; imgD] else [].



(** One clear scene for each year of the study: the NDVI grows by 1/10
    a year in the west, from 1/10 to 6/10, and falls by 1/10 a year in
    the east. *)
Definition clearScene (y : Z) (redW nirW redE nirE : Q) : EE.Image :=
  scene (EE.mkDate y 7 1 0) tile
        [("B4", fun p => if west p then Some redW else Some redE);
         ("B8", fun p => if west p then Some nirW else Some nirE);
         ("SCL", flat 4); ("QA60", flat 0)].

Definition fullCatalog (id : string) : EE.ImageCollection :=
  if String.eqb id "COPERNICUS/S2_SR"
  then [clearScene 2018 9 11 4 16; clearScene 2019 8 12 5 15;
        clearScene 2020 7 13 6 14; clearScene 2021 6 14 7 13;
        clearScene 2022 5 15 8 12; clearScene 2023 4 16 9 11]
  else [].

(** The same Sentinel-2 scenes, with a Landsat collection beside. *)
Definition catalogWithLandsat (id : string) : EE.ImageCollection :=
  if String.eqb id "LANDSAT/LC08/C02/T1_L2" then [imgL8] else catalog id.

Definition pW : EE.Point := (88.4, 23.1).
Definition pE : EE.Point := (88.5, 23.2).
Definition pOut : EE.Point := (90, 23.2).

Definition grid (_ : EE.Geometry) (_ : Q) : list EE.Point := [pW; pE].
Definition bestEffortScale (_ : EE.Geometry) (s : Q) (_ : Z) : Q := s * 2.
Definition pixelAreaAt (_ : EE.Point) : Q := 100.

End Example.


(* ================================================================== *)
(** ** The script *)

Inductive Sensor : Type := S2 | L8.

Inductive Printed : Type :=
| PNumber (n : Z)
| PNumbers (l : list Z)
| PFeatures (fc : list EE.Feature)
| PChart (c : EE.Chart)
| PDictionary (d : EE.Dictionary)
| PText.

Section Script.

(** What the platform alone knows: the images of a catalog collection,
    the sample points of a geometry at a scale in metres, the coarser
    scale it falls back to under [bestEffort], and the area in square
    metres of the pixel at a point. *)
Variable catalog : string -> EE.ImageCollection.
Variable grid : EE.Geometry -> Q -> list EE.Point.
Variable bestEffortScale : EE.Geometry -> Q -> Z -> Q.
Variable pixelAreaAt : EE.Point -> Q.

(** [image.reduceRegion({reducer, geometry, scale, bestEffort,
    maxPixels})]. *)
Definition reduceRegion (reducer : EE.Reducer.t) (geometry : EE.Geometry) (scale : Q)
           (bestEffort : bool) (maxPixels : Z) (img : EE.Image)
  : result EE.Dictionary :=
  if (Z.of_nat (List.length (grid geometry scale)) <=? maxPixels)%Z then
    OK (EE.reducePixels reducer (grid geometry scale) img)
  else if bestEffort then
    OK (EE.reducePixels reducer
          (grid geometry (bestEffortScale geometry scale maxPixels)) img)
  else Err "Image.reduceRegion: too many pixels in the region".

(** [ee.Image.pixelArea()]. *)
Definition pixelArea : EE.Image :=
  EE.mkImage [("area", fun p => Some (pixelAreaAt p))] [] None None.

(** *** User parameters *)

Definition sensor : Sensor := S2.
Definition yearStart : Z := 2018.
Definition yearEnd : Z := 2023.
Definition region : EE.Geometry := EE.Rectangle 88.35 23.05 88.55 23.35.
Definition studyScale : Q :=
  match sensor with
  | S2 => 10
  | L8 => 30
  end.

(** *** Robust S2 mask *)

(** The three local variables of [maskS2SR], as functions of its
    argument. *)
Definition sclMask (image : EE.Image) : result EE.Image :=
  let bnames := EE.bandNames image in
  let sclExists := EE.containsName bnames "SCL" in
  EE.Algorithms.If sclExists
    (bind2 EE.or
       (bind2 EE.or
          (bind2 EE.or (fmap (EE.eq 4) (EE.select "SCL" image))
                       (fmap (EE.eq 5) (EE.select "SCL" image)))
          (fmap (EE.eq 6) (EE.select "SCL" image)))
       (fmap (EE.eq 7) (EE.select "SCL" image)))
    (OK (EE.constant 1)).

Definition qaMask (image : EE.Image) : result EE.Image :=
  let bnames := EE.bandNames image in
  let qaExists := EE.containsName bnames "QA60" in
  EE.Algorithms.If qaExists
    (fmap (EE.eq 0) (EE.select "QA60" image))
    (EE.Algorithms.If (EE.containsName bnames "MSK_CLDPRB")
       (fmap (EE.lt 50) (EE.select "MSK_CLDPRB" image))
       (OK (EE.constant 1))).

Definition combined (image : EE.Image) : result EE.Image :=
  bind2 EE.or (sclMask image) (qaMask image).

Definition maskS2SR (image : EE.Image) : result EE.Image :=
  bind (combined image) (EE.updateMask image).

(** *** L8 mask *)

Definition maskL8SR (image : EE.Image) : result EE.Image :=
  let qa := EE.select "QA_PIXEL" image in
  let cloud := Z.shiftl 1 3 in
  let cloudShadow := Z.shiftl 1 4 in
  let mask :=
    bind2 EE.and (fmap (EE.eq 0) (fmap (EE.bitwiseAnd cloud) qa))
                 (fmap (EE.eq 0) (fmap (EE.bitwiseAnd cloudShadow) qa)) in
  bind mask (EE.updateMask image).

(** *** NDVI *)

Definition addNDVIBands (img : EE.Image) : result EE.Image :=
  match sensor with
  | S2 =>
      fmap (EE.addBands img)
           (bind (EE.normalizedDifference "B8" "B4" img) (EE.rename "NDVI"))
  | L8 =>
      fmap (EE.addBands img)
           (bind (EE.normalizedDifference "SR_B5" "SR_B4" img) (EE.rename "NDVI"))
  end.

(** *** The collection of a year *)

Definition collectionForYear (y : Z) : result EE.ImageCollection :=
  let start := EE.fromYMD y 1 1 in
  let stop := EE.advanceYear 1 start in
  match sensor with
  | S2 =>
      bind (mapM maskS2SR
              (EE.filterBounds region
                 (EE.filterDate start stop (catalog "COPERNICUS/S2_SR"))))
           (mapM addNDVIBands)
  | L8 =>
      bind (mapM maskL8SR
              (EE.filterBounds region
                 (EE.filterDate start stop (catalog "LANDSAT/LC08/C02/T1_L2"))))
           (mapM addNDVIBands)
  end.

(** *** Yearly images *)

Definition years : list Z := EE.sequence yearStart yearEnd.

Definition counts : result (list Z) :=
  mapM (fun y => fmap EE.size (collectionForYear y)) years.

(** The yearly NDVI image of [y], nodata -9999 when the year has no
    image: the body of the function mapped over [years]. *)
Definition yearlyImage (y : Z) : result EE.Image :=
  col <- collectionForYear y ;;
  med <- EE.Algorithms.If (EE.size col >? 0)%Z
           (fmap (EE.clip region) (bind (EE.selectAll "NDVI" col) EE.median))
           (EE.rename "NDVI" (EE.clip region (EE.constant (-9999)))) ;;
  t <- EE.rename "t" (EE.constant (inject_Z y)) ;;
  OK (EE.set "year" (inject_Z y) (EE.addBands med t)).

Definition yearlyList : result (list EE.Image) := mapM yearlyImage years.

Definition yearCollection : result EE.ImageCollection :=
  fmap EE.fromImages yearlyList.

Definition lastYear : result (option EE.Image) :=
  fmap (EE.firstWhereEq "year" (inject_Z yearEnd)) yearCollection.

(** *** Trend: linear slope per year *)

Definition paired : result EE.ImageCollection :=
  bind yearCollection (EE.selectBandsAll ["t"; "NDVI"]).

Definition fit : result EE.Image :=
  bind paired (EE.reduce EE.Reducer.linearFit).

(** [slope] as first assigned, before the nodata mask. *)
Definition slopeOfFit : result EE.Image :=
  bind (bind fit (EE.select "scale")) (EE.rename "NDVI_slope_per_year").

Definition anyValid : result EE.Image :=
  fmap (EE.neq (-9999))
       (bind (bind yearCollection (EE.selectAll "NDVI")) (EE.reduce EE.Reducer.min)).

(** [slope] as reassigned: the value every later statement reads. *)
Definition slope : result EE.Image :=
  bind2 EE.updateMask slopeOfFit anyValid.

(** *** Regional mean chart *)

Definition maxPixels : Z := 10000000000000.

Definition meanFeature (img : EE.Image) : result EE.Feature :=
  let yr := EE.get "year" img in
  mean <- bind (EE.select "NDVI" img)
               (reduceRegion EE.Reducer.mean region studyScale true maxPixels) ;;
  OK (EE.mkFeature None [("year", yr); ("meanNDVI", EE.dictGet "NDVI" mean)]).

Definition meanPerYearFC : result (list EE.Feature) :=
  bind yearCollection (mapM meanFeature).

Definition chart : result EE.Chart :=
  fmap (fun fc => EE.setTitle "Mean NDVI per year"
                    (EE.byFeature fc "year" ["meanNDVI"]))
       meanPerYearFC.

(** *** Area stats *)

Definition areaPosTrend : result EE.Dictionary :=
  bind (bind2 EE.multiply (fmap (EE.gt 0) slope) (OK pixelArea))
       (reduceRegion EE.Reducer.sum region studyScale true maxPixels).

Definition areaNegTrend : result EE.Dictionary :=
  bind (bind2 EE.multiply (fmap (EE.lt 0) slope) (OK pixelArea))
       (reduceRegion EE.Reducer.sum region studyScale true maxPixels).

(** What the script prints, in order. *)
Definition console : list (string * result Printed) :=
  [ ("Image counts per year:", fmap PNumbers counts);
    ("Yearly NDVI collection size:", fmap (fun c => PNumber (EE.size c)) yearCollection);
    ("Mean NDVI per year (FeatureCollection):", fmap PFeatures meanPerYearFC);
    ("", fmap PChart chart);
    ("Area pos trend (m^2):", fmap PDictionary areaPosTrend);
    ("Area neg trend (m^2):", fmap PDictionary areaNegTrend);
    ("Finished. If another error appears, paste the first line(s) of the Console error here.",
     OK PText) ].

(* ------------------------------------------------------------------ *)
(** *** The vocabulary of the statements *)

Definition hasBand (name : string) (img : EE.Image) : bool :=
  EE.containsName (EE.bandNames img) name.

(** The land classes of the scene classification: vegetation (4), not
    vegetated (5), bare soils (6), water (7). *)
Definition sclKeeps (c : Q) : bool :=
  Qeq_bool c 4 || Qeq_bool c 5 || Qeq_bool c 6 || Qeq_bool c 7.

(** What each of the two masks says of a pixel: [None] where the band
    it reads is masked, [Some true] everywhere when the band is
    missing. *)
Definition sclVote (img : EE.Image) (p : EE.Point) : option bool :=
  match EE.lookup "SCL" (EE.bands img) with
  | Some r => option_map sclKeeps (r p)
  | None => Some true
  end.

Definition qaVote (img : EE.Image) (p : EE.Point) : option bool :=
  match EE.lookup "QA60" (EE.bands img) with
  | Some r => option_map (fun q => Qeq_bool q 0) (r p)
  | None =>
      match EE.lookup "MSK_CLDPRB" (EE.bands img) with
      | Some r => option_map (fun c => negb (Qle_bool 50 c)) (r p)
      | None => Some true
      end
  end.

(** The rule of [maskS2SR]: a pixel is kept when either mask accepts
    it. *)
Definition keepS2 (img : EE.Image) (p : EE.Point) : bool :=
  match sclVote img p, qaVote img p with
  | Some a, Some b => a || b
  | _, _ => false
  end.

(** The rule of [maskL8SR]: the cloud bit (3) and the cloud shadow bit
    (4) of [QA_PIXEL] are both clear. *)
Definition keepL8 (qa : Q) : bool :=
  negb (Z.testbit (Qfloor qa) 3) && negb (Z.testbit (Qfloor qa) 4).

(** How the platform reads a band value as a mask: no value, zero, or
    not zero. *)
Definition maskBit (o : option Q) : option bool := option_map EE.truthy o.



(** The catalog holds surface-reflectance scenes: a red band [B4], a
    near-infrared band [B8], and no band called [NDVI] yet. *)
Definition wellFormedS2 (img : EE.Image) : bool :=
  hasBand "B8" img && hasBand "B4" img && negb (hasBand "NDVI" img).

Definition catalogOK : Prop :=
  forallb wellFormedS2 (catalog "COPERNICUS/S2_SR") = true.

(** Acquired from the first of January of [y], included, to the first
    of January of [y + 1], excluded. *)
Definition inYear (y : Z) (img : EE.Image) : bool :=
  match EE.time_start img with
  | Some t => EE.dateLe (EE.mkDate y 1 1 0) t && EE.dateLt t (EE.mkDate (y + 1) 1 1 0)
  | None => false
  end.

(** The footprint meets the rectangle of the study. *)
Definition overRegion (img : EE.Image) : bool :=
  match EE.footprint img with
  | Some f => EE.intersects f (EE.Rectangle 88.35 23.05 88.55 23.35)
  | None => true
  end.

(** The unmasked NDVI values the images of a collection have at [p]. *)
Definition ndviAt (col : list EE.Image) (p : EE.Point) : list Q :=
  flat_map (fun img => EE.valid (EE.sample "NDVI" img p)) col.

(** [m] is a median of [l]: at least half of the values are at most
    [m], and at least half are at least [m]. *)
Definition isMedianOf (m : Q) (l : list Q) : Prop :=
  (List.length l <= 2 * List.length (filter (fun x => Qle_bool x m) l))%nat /\
  (List.length l <= 2 * List.length (filter (fun x => Qle_bool m x) l))%nat.

(** The points [(year, NDVI)] the yearly images give at [p]. *)
Definition trendPoints (yc : list EE.Image) (p : EE.Point) : list (Q * Q) :=
  flat_map (fun img =>
              match EE.sample "t" img p, EE.sample "NDVI" img p with
              | Some x, Some v => [(x, v)]
              | _, _ => []
              end) yc.

(** The sum of the squared residuals of the line [y = a * x + b]. *)
Definition sse (pts : list (Q * Q)) (a b : Q) : Q :=
  EE.Qsum (map (fun xy => (snd xy - (a * fst xy + b)) * (snd xy - (a * fst xy + b))) pts).

(** The region holds no more pixels at the study scale than
    [maxPixels], so that [bestEffort] never coarsens the scale. *)
Definition withinMaxPixels : Prop :=
  (Z.of_nat (List.length (grid region studyScale)) <= maxPixels)%Z.

(** The bands of a yearly image. *)
Definition yearlyShaped (img : EE.Image) : Prop :=
  exists r k, EE.bands img = [("NDVI", r); ("t", k)].

(** A yearly image as [paired] holds it: band [t], then band [NDVI]. *)
Definition pairedImage (img : EE.Image) : EE.Image :=
  EE.withBands img [("t", EE.band "t" img); ("NDVI", EE.band "NDVI" img)].

(** NDVI values are normalised differences. *)
Definition ndviBounded (img : EE.Image) : Prop :=
  forall p v, EE.sample "NDVI" img p = Some v -> -1 <= v /\ v <= 1.

(** No yearly image has a value below the nodata value. *)
Definition aboveNodata (img : EE.Image) : Prop :=
  forall p v, EE.sample "NDVI" img p = Some v -> -9999 <= v.

(** The mean of the unmasked NDVI values of an image over the pixels
    of the region at the study scale. *)
Definition regionalMean (img : EE.Image) : option Q :=
  EE.meanList (flat_map (fun p => EE.valid (EE.sample "NDVI" img p))
                        (grid region studyScale)).

(** [m] is the mean of [vs]: no value for no input, else the number
    whose product by the count is the sum. *)
Definition isMeanOf (m : option Q) (vs : list Q) : Prop :=
  match vs, m with
  | [], None => True
  | _ :: _, Some v =>
      v * inject_Z (Z.of_nat (List.length vs)) == fold_right Qplus 0 vs
  | _, _ => False
  end.

(** The unmasked NDVI values of an image at the pixels of the region
    at the study scale. *)
Definition regionValues (img : EE.Image) : list Q :=
  flat_map (fun p => EE.valid (EE.sample "NDVI" img p)) (grid region studyScale).

(** The scale a reduction over the rectangle of the study runs at. *)
Definition scaleUsed : Q :=
  if (Z.of_nat (List.length (grid (EE.Rectangle 88.35 23.05 88.55 23.35) studyScale))
      <=? maxPixels)%Z
  then studyScale
  else bestEffortScale (EE.Rectangle 88.35 23.05 88.55 23.35) studyScale maxPixels.

Definition positive (s : Q) : bool := negb (Qle_bool s 0).
Definition negative (s : Q) : bool := negb (Qle_bool 0 s).

(** The area of the pixels of the region, at the study scale, whose
    slope has a value that passes [test]. *)
Definition areaWhere (test : Q -> bool) (sl : EE.Image) : Q :=
  EE.Qsum (map pixelAreaAt
               (filter (fun p => match EE.sample "NDVI_slope_per_year" sl p with
                                 | Some s => test s
                                 | None => false
                                 end)
                       (grid region studyScale))).

(** The normalised difference of the near-infrared and red bands of
    an image at a point. *)
Definition ndviOf (img : EE.Image) (p : EE.Point) : option Q :=
  match EE.sample "B8" img p, EE.sample "B4" img p with
  | Some a, Some b => EE.nd a b
  | _, _ => None
  end.

(** The catalog scenes that pass the two filters of year [y]. *)
Definition scenesOfYear (y : Z) : list EE.Image :=
  filter overRegion (filter (inYear y) (catalog "COPERNICUS/S2_SR")).

Definition hasRedNir (img : EE.Image) : bool :=
  hasBand "B8" img && hasBand "B4" img.

(** The area of all the pixels of the region at the study scale. *)
Definition regionArea : Q :=
  EE.Qsum (map pixelAreaAt (grid region studyScale)).

(* ------------------------------------------------------------------ *)
(** ** Facts about the platform operators *)

Lemma containsName_lookup {A} (l : list (string * A)) (n : string) :
  EE.containsName (map fst l) n =
  match EE.lookup n l with Some _ => true | None => false end.
Proof.
  induction l as [|[k v] l IH]; simpl; [reflexivity|].
  destruct (String.eqb n k); simpl; auto.
Qed.

Lemma lookup_map_snd {A B} (f : A -> B) (l : list (string * A)) (n : string) :
  EE.lookup n (map (fun x => (fst x, f (snd x))) l) = option_map f (EE.lookup n l).
Proof.
  induction l as [|[k v] l IH]; simpl; [reflexivity|].
  destruct (String.eqb n k); simpl; auto.
Qed.

Lemma truthy_ofBool (b : bool) : EE.truthy (EE.ofBool b) = b.
Proof. destruct b; reflexivity. Qed.

Lemma sample_updateMask1 (img : EE.Image) (k : string) (m : EE.Raster)
      (mask : EE.Image) :
  EE.bands mask = [(k, m)] ->
  exists out,
    EE.updateMask img mask = OK out /\
    EE.bandNames out = EE.bandNames img /\
    EE.properties out = EE.properties img /\
    EE.footprint out = EE.footprint img /\
    EE.time_start out = EE.time_start img /\
    forall b, EE.lookup b (EE.bands out) =
              option_map (fun r => EE.maskRaster r m) (EE.lookup b (EE.bands img)).
Proof.
  intros Hm. unfold EE.updateMask. rewrite Hm.
  eexists; split; [reflexivity|].
  unfold EE.bandNames; simpl. rewrite map_map; simpl.
  repeat split; auto. intros b.
  exact (lookup_map_snd (fun r => EE.maskRaster r m) (EE.bands img) b).
Qed.

(** *** The S2 mask *)

Lemma sclMask_spec (image : EE.Image) :
  exists m n r,
    sclMask image = OK m /\ EE.bands m = [(n, r)] /\
    forall p, r p = option_map EE.ofBool (sclVote image p).
Proof.
  unfold sclMask, sclVote, EE.Algorithms.If, EE.select, EE.bandNames.
  rewrite containsName_lookup.
  destruct (EE.lookup "SCL" (EE.bands image)) as [r0|].
  - eexists; eexists; eexists; split; [reflexivity|]. split; [reflexivity|].
    intros p; cbn. unfold EE.zipRaster, EE.mapRaster.
    destruct (r0 p) as [c|]; cbn; [|reflexivity].
    rewrite !truthy_ofBool. reflexivity.
  - exists (EE.constant 1), "constant", (fun _ => Some 1). repeat split.
Qed.

Lemma qaMask_spec (image : EE.Image) :
  exists m n r,
    qaMask image = OK m /\ EE.bands m = [(n, r)] /\
    forall p, r p = option_map EE.ofBool (qaVote image p).
Proof.
  unfold qaMask, qaVote, EE.Algorithms.If, EE.select, EE.bandNames.
  rewrite !containsName_lookup.
  destruct (EE.lookup "QA60" (EE.bands image)) as [r0|].
  - eexists; eexists; eexists; split; [reflexivity|]. split; [reflexivity|].
    intros p; cbn. unfold EE.mapRaster. destruct (r0 p); reflexivity.
  - destruct (EE.lookup "MSK_CLDPRB" (EE.bands image)) as [r1|].
    + eexists; eexists; eexists; split; [reflexivity|]. split; [reflexivity|].
      intros p; cbn. unfold EE.mapRaster. destruct (r1 p); reflexivity.
    + exists (EE.constant 1), "constant", (fun _ => Some 1). repeat split.
Qed.

Lemma combined_spec (image : EE.Image) :
  exists m n r,
    combined image = OK m /\ EE.bands m = [(n, r)] /\
    forall p, r p =
              match sclVote image p, qaVote image p with
              | Some a, Some b => Some (EE.ofBool (a || b))
              | _, _ => None
              end.
Proof.
  destruct (sclMask_spec image) as (ms & ns & rs & Hs & Hbs & Hrs).
  destruct (qaMask_spec image) as (mq & nq & rq & Hq & Hbq & Hrq).
  unfold combined. rewrite Hs, Hq. cbn. unfold EE.or, EE.binop.
  rewrite Hbs, Hbq. cbn.
  eexists; eexists; eexists; split; [reflexivity|]. split; [reflexivity|].
  intros p. unfold EE.zipRaster. rewrite Hrs, Hrq.
  destruct (sclVote image p), (qaVote image p); cbn; try reflexivity.
  rewrite !truthy_ofBool. reflexivity.
Qed.

(** What [maskS2SR] does to every band of every image. *)
Lemma maskS2SR_spec (image : EE.Image) :
  exists out,
    maskS2SR image = OK out /\
    EE.bandNames out = EE.bandNames image /\
    EE.properties out = EE.properties image /\
    EE.footprint out = EE.footprint image /\
    EE.time_start out = EE.time_start image /\
    forall b p, EE.sample b out p =
                if keepS2 image p then EE.sample b image p else None.
Proof.
  destruct (combined_spec image) as (m & n & r & Hc & Hb & Hr).
  destruct (sample_updateMask1 image n r m Hb) as (out & Ho & Hn & Hp & Hf & Ht & Hl).
  exists out. unfold maskS2SR. rewrite Hc. cbn. repeat (split; [assumption|]).
  intros b p. unfold EE.sample. rewrite Hl.
  destruct (EE.lookup b (EE.bands image)) as [rb|]; cbn.
  - unfold EE.maskRaster, keepS2. rewrite Hr.
    destruct (rb p), (sclVote image p) as [a|], (qaVote image p) as [c|]; cbn;
      try reflexivity; try rewrite truthy_ofBool; destruct (a || c); reflexivity.
  - destruct (keepS2 image p); reflexivity.
Qed.

(** *** The L8 mask *)

Lemma land_pow2_eqb (x n : Z) :
  (0 <= n)%Z -> (Z.land x (2 ^ n) =? 0)%Z = negb (Z.testbit x n).
Proof.
  intros Hn. destruct (Z.testbit x n) eqn:Hb; simpl.
  - apply Z.eqb_neq. intros H0.
    assert (Hc : Z.testbit (Z.land x (2 ^ n)) n = true).
    { rewrite Z.land_spec, Hb, Z.pow2_bits_true; auto. }
    rewrite H0, Z.bits_0 in Hc. discriminate.
  - apply Z.eqb_eq. apply Z.bits_inj'. intros m Hm.
    rewrite Z.land_spec, Z.bits_0, Z.pow2_bits_eqb by assumption.
    destruct (Z.eqb_spec n m) as [->|]; [rewrite Hb|]; auto using andb_false_r.
Qed.

Lemma Qeq_bool_inject_Z_0 (z : Z) : Qeq_bool (inject_Z z) 0 = (z =? 0)%Z.
Proof.
  unfold Qeq_bool, inject_Z; simpl. rewrite Z.mul_1_r.
  destruct z; reflexivity.
Qed.

Lemma maskL8SR_spec (image : EE.Image) :
  match EE.lookup "QA_PIXEL" (EE.bands image) with
  | Some qa =>
      exists out,
        maskL8SR image = OK out /\
        forall b p, EE.sample b out p =
                    match qa p with
                    | Some v => if keepL8 v then EE.sample b image p else None
                    | None => None
                    end
  | None => exists e, maskL8SR image = Err e
  end.
Proof.
  unfold maskL8SR, EE.select.
  destruct (EE.lookup "QA_PIXEL" (EE.bands image)) as [qa|]; [|eexists; reflexivity].
  cbn. eexists; split; [reflexivity|].
  intros b p. unfold EE.sample; cbn.
  rewrite (lookup_map_snd (fun r => EE.maskRaster r _) (EE.bands image) b).
  destruct (EE.lookup b (EE.bands image)) as [rb|]; cbn.
  - unfold EE.maskRaster, EE.zipRaster, EE.mapRaster.
    destruct (qa p) as [v|]; [|destruct (rb p); reflexivity].
    cbn [option_map]. rewrite !truthy_ofBool, !Qeq_bool_inject_Z_0.
    change 8%Z with (2 ^ 3)%Z. change 16%Z with (2 ^ 4)%Z.
    rewrite !land_pow2_eqb by lia. fold (keepL8 v).
    destruct (rb p), (keepL8 v); reflexivity.
  - destruct (qa p) as [v|]; [destruct (keepL8 v)|]; reflexivity.
Qed.

(** *** Sequencing *)

Lemma mapM_Forall2 {A B} (f : A -> result B) (l : list A) (l' : list B) :
  mapM f l = OK l' <-> Forall2 (fun a b => f a = OK b) l l'.
Proof.
  revert l'. induction l as [|a l IH]; intros l'; simpl.
  - split; intros H; inversion H; subst; [constructor | reflexivity].
  - destruct (f a) as [b|e] eqn:Hfa.
    + destruct (mapM f l) as [bs|e] eqn:Hm; split; intros H.
      * inversion H; subst. constructor; [assumption | now apply IH].
      * inversion H as [|? b' ? bs' Hb Hbs]; subst.
        rewrite Hfa in Hb; inversion Hb; subst.
        apply IH in Hbs. inversion Hbs; subst. reflexivity.
      * discriminate.
      * inversion H as [|? b' ? bs' Hb Hbs]; subst.
        apply IH in Hbs. discriminate.
    + split; intros H; [discriminate|].
      inversion H as [|? b' ? bs' Hb Hbs]; subst. rewrite Hfa in Hb. discriminate.
Qed.

Lemma mapM_In {A B} (f : A -> result B) (l : list A) (l' : list B) (b : B) :
  mapM f l = OK l' -> In b l' -> exists a, In a l /\ f a = OK b.
Proof.
  intros H. apply mapM_Forall2 in H. induction H as [|a b' l0 l0' Hab _ IH]; simpl.
  - intros [].
  - intros [<-|Hin]; [exists a; auto|].
    destruct (IH Hin) as (a0 & Ha0 & Hf). exists a0; auto.
Qed.

Lemma mapM_In_l {A B} (f : A -> result B) (l : list A) (l' : list B) (a : A) :
  mapM f l = OK l' -> In a l -> exists b, In b l' /\ f a = OK b.
Proof.
  intros H. apply mapM_Forall2 in H. induction H as [|a' b l0 l0' Hab _ IH]; simpl.
  - intros [].
  - intros [<-|Hin]; [exists b; auto|].
    destruct (IH Hin) as (b0 & Hb0 & Hf). exists b0; auto.
Qed.

(** *** Bands and NDVI *)

Lemma lookup_app {A} (n : string) (l l' : list (string * A)) :
  EE.lookup n (l ++ l') =
  match EE.lookup n l with Some v => Some v | None => EE.lookup n l' end.
Proof.
  induction l as [|[k v] l IH]; simpl; [reflexivity|].
  destruct (String.eqb n k); auto.
Qed.

Lemma hasBand_lookup (n : string) (img : EE.Image) :
  hasBand n img = match EE.lookup n (EE.bands img) with Some _ => true | None => false end.
Proof. apply containsName_lookup. Qed.

Lemma lookup_addBand (n : string) (bs : list (string * EE.Raster)) (r : EE.Raster) :
  EE.lookup n (EE.addBand bs (n, r)) =
  match EE.lookup n bs with Some r0 => Some r0 | None => Some r end.
Proof.
  unfold EE.addBand; simpl. rewrite containsName_lookup.
  destruct (EE.lookup n bs) as [r0|] eqn:Hl; rewrite lookup_app, Hl; [reflexivity|].
  simpl. now rewrite String.eqb_refl.
Qed.

Lemma nd_bounds (a b v : Q) : EE.nd a b = Some v -> -1 <= v /\ v <= 1.
Proof.
  unfold EE.nd. destruct (Qle_bool 0 a) eqn:Ha; [|discriminate].
  destruct (Qle_bool 0 b) eqn:Hb; [|discriminate]. simpl.
  intros H; inversion H; subst; clear H.
  apply Qle_bool_iff in Ha. apply Qle_bool_iff in Hb.
  destruct (Qeq_dec (a + b) 0) as [Hz|Hz].
  - assert (Ha0 : a == 0) by lra. assert (Hb0 : b == 0) by lra.
    rewrite Ha0, Hb0. vm_compute. split; discriminate.
  - assert (Hpos : 0 < a + b) by lra. split.
    + apply Qle_shift_div_l; [assumption | lra].
    + apply Qle_shift_div_r; [assumption | lra].
Qed.

Lemma addNDVIBands_spec (img : EE.Image) :
  match EE.lookup "B8" (EE.bands img), EE.lookup "B4" (EE.bands img) with
  | Some r8, Some r4 =>
      addNDVIBands img =
      OK (EE.withBands img (EE.addBand (EE.bands img) ("NDVI", EE.ndRaster r8 r4)))
  | _, _ => exists e, addNDVIBands img = Err e
  end.
Proof.
  unfold addNDVIBands, sensor, EE.normalizedDifference.
  destruct (EE.lookup "B8" (EE.bands img)) as [r8|];
    destruct (EE.lookup "B4" (EE.bands img)) as [r4|];
    first [reflexivity | eexists; reflexivity].
Qed.

(** *** The collection of a year and its composite *)

Lemma sample_band (n : string) (img : EE.Image) (p : EE.Point) :
  EE.sample n img p = EE.band n img p.
Proof.
  unfold EE.sample, EE.band. destruct (EE.lookup n (EE.bands img)); reflexivity.
Qed.

Lemma bind_OK {A B} (m : result A) (k : A -> result B) (b : B) :
  bind m k = OK b -> exists a, m = OK a /\ k a = OK b.
Proof. destruct m as [a|e]; simpl; [eauto | discriminate]. Qed.

Lemma collectionForYear_inv (y : Z) (col : EE.ImageCollection) :
  collectionForYear y = OK col ->
  exists masked,
    mapM maskS2SR
         (EE.filterBounds region
            (EE.filterDate (EE.fromYMD y 1 1) (EE.advanceYear 1 (EE.fromYMD y 1 1))
                           (catalog "COPERNICUS/S2_SR"))) = OK masked /\
    mapM addNDVIBands masked = OK col.
Proof. unfold collectionForYear, sensor. apply bind_OK. Qed.

Lemma addNDVIBands_hasNDVI (img out : EE.Image) :
  addNDVIBands img = OK out -> exists r, EE.lookup "NDVI" (EE.bands out) = Some r.
Proof.
  intros H. pose proof (addNDVIBands_spec img) as Hs.
  destruct (EE.lookup "B8" (EE.bands img)) as [r8|];
    [destruct (EE.lookup "B4" (EE.bands img)) as [r4|]|].
  - rewrite Hs in H. injection H as <-. cbn [EE.bands EE.withBands].
    rewrite lookup_addBand. destruct (EE.lookup "NDVI" (EE.bands img)); eauto.
  - destruct Hs as [e He]. rewrite He in H. discriminate.
  - destruct Hs as [e He]. rewrite He in H. discriminate.
Qed.

Lemma collectionForYear_hasNDVI (y : Z) (col : EE.ImageCollection) :
  collectionForYear y = OK col ->
  Forall (fun img => exists r, EE.lookup "NDVI" (EE.bands img) = Some r) col.
Proof.
  intros H. destruct (collectionForYear_inv y col H) as (masked & _ & Hadd).
  apply Forall_forall. intros img Hin.
  destruct (mapM_In _ _ _ _ Hadd Hin) as (a & _ & Ha).
  eapply addNDVIBands_hasNDVI; eauto.
Qed.

Lemma selectAll_spec (n : string) (col : EE.ImageCollection) :
  Forall (fun img => exists r, EE.lookup n (EE.bands img) = Some r) col ->
  EE.selectAll n col = OK (map (fun img => EE.withBands img [(n, EE.band n img)]) col).
Proof.
  unfold EE.selectAll. induction 1 as [|img col [r Hr] _ IH]; simpl; [reflexivity|].
  rewrite IH. unfold EE.select, EE.band. rewrite Hr. reflexivity.
Qed.

Lemma sameBandCount_single (n : string) (f : EE.Image -> EE.Raster)
      (col : EE.ImageCollection) :
  EE.sameBandCount 1 (map (fun img => EE.withBands img [(n, f img)]) col) = true.
Proof. induction col; simpl; auto. Qed.

Lemma valuesAt_single (n : string) (col : EE.ImageCollection) (p : EE.Point) :
  EE.valuesAt 0 (map (fun img => EE.withBands img [(n, EE.band n img)]) col) p =
  flat_map (fun img => EE.valid (EE.sample n img p)) col.
Proof.
  unfold EE.valuesAt. induction col as [|img col IH]; simpl; [reflexivity|].
  rewrite IH, sample_band. reflexivity.
Qed.

Lemma reduceBandwise_single (naming : string -> string) (f : list Q -> option Q)
      (n : string) (i : EE.Image) (rest : EE.ImageCollection) :
  EE.reduceBandwise naming f
    (map (fun img => EE.withBands img [(n, EE.band n img)]) (i :: rest)) =
  OK (EE.mkImage
        [(naming n,
          fun p => f (EE.valuesAt 0
                        (map (fun img => EE.withBands img [(n, EE.band n img)]) (i :: rest))
                        p))]
        [] None None).
Proof.
  pose proof (sameBandCount_single n (EE.band n) (i :: rest)) as H.
  cbn [map] in H |- *. unfold EE.reduceBandwise.
  cbn [EE.bands EE.withBands List.length]. rewrite H. reflexivity.
Qed.

(** The image [yearlyImage] builds from the collection of the year. *)
Lemma yearlyImage_spec (y : Z) (col : EE.ImageCollection) :
  collectionForYear y = OK col ->
  exists r,
    yearlyImage y =
    OK (EE.mkImage [("NDVI", EE.clipRaster region r); ("t", fun _ => Some (inject_Z y))]
                   [("year", inject_Z y)] (Some region) None) /\
    forall p, r p = match col with
                    | [] => Some (-9999)
                    | _ => EE.medianList (ndviAt col p)
                    end.
Proof.
  intros Hcol. unfold yearlyImage. rewrite Hcol. cbn [bind].
  destruct col as [|i col'].
  - exists (fun _ => Some (-9999)). split; reflexivity.
  - pose proof (collectionForYear_hasNDVI y _ Hcol) as Hn.
    replace (EE.size (i :: col') >? 0)%Z with true
      by (unfold EE.size; simpl List.length; symmetry; apply Z.gtb_lt; lia).
    cbn [EE.Algorithms.If]. rewrite (selectAll_spec "NDVI" _ Hn). cbn [bind fmap].
    unfold EE.median. rewrite reduceBandwise_single.
    eexists; split; [reflexivity|].
    intros p. exact (f_equal EE.medianList (valuesAt_single "NDVI" (i :: col') p)).
Qed.

(** *** The yearly collection *)

Lemma yearlyImage_inv (y : Z) (img : EE.Image) :
  yearlyImage y = OK img ->
  exists col r,
    collectionForYear y = OK col /\
    img = EE.mkImage [("NDVI", EE.clipRaster region r); ("t", fun _ => Some (inject_Z y))]
                     [("year", inject_Z y)] (Some region) None /\
    forall p, r p = match col with
                    | [] => Some (-9999)
                    | _ => EE.medianList (ndviAt col p)
                    end.
Proof.
  intros H. destruct (collectionForYear y) as [col|e] eqn:Hcol.
  - destruct (yearlyImage_spec y col Hcol) as (r & Hy & Hr).
    rewrite Hy in H. inversion H; subst. exists col, r. auto.
  - unfold yearlyImage in H. rewrite Hcol in H. discriminate.
Qed.

Lemma yearCollection_Forall2 (yc : EE.ImageCollection) :
  yearCollection = OK yc -> Forall2 (fun y img => yearlyImage y = OK img) years yc.
Proof.
  unfold yearCollection, yearlyList, fmap. intros H.
  apply bind_OK in H. destruct H as (l & Hl & Heq). inversion Heq; subst.
  now apply mapM_Forall2.
Qed.

Lemma yearCollection_shaped (yc : EE.ImageCollection) :
  yearCollection = OK yc -> Forall yearlyShaped yc.
Proof.
  intros H. apply yearCollection_Forall2 in H.
  induction H as [|y img ys imgs Hy _ IH]; constructor; [|assumption].
  destruct (yearlyImage_inv y img Hy) as (col & r & _ & -> & _).
  eexists; eexists; reflexivity.
Qed.

Lemma yearCollection_length (yc : EE.ImageCollection) :
  yearCollection = OK yc ->
  List.length yc = Z.to_nat (yearEnd - yearStart + 1).
Proof.
  intros H. apply yearCollection_Forall2 in H.
  apply Forall2_length in H. rewrite <- H. reflexivity.
Qed.

(** *** The fit *)

Lemma selectBandsAll_paired (yc : EE.ImageCollection) :
  Forall yearlyShaped yc ->
  EE.selectBandsAll ["t"; "NDVI"] yc = OK (map pairedImage yc).
Proof.
  unfold EE.selectBandsAll.
  induction 1 as [|img yc (r & k & Hb) _ IH]; simpl; [reflexivity|].
  rewrite IH. unfold EE.selectBands, pairedImage, EE.band. rewrite Hb. reflexivity.
Qed.

Lemma sameBandCount_paired (yc : EE.ImageCollection) :
  EE.sameBandCount 2 (map pairedImage yc) = true.
Proof. induction yc; simpl; auto. Qed.

Lemma pairsAt_paired (yc : EE.ImageCollection) (p : EE.Point) :
  EE.pairsAt (map pairedImage yc) p = trendPoints yc p.
Proof.
  unfold EE.pairsAt, trendPoints. induction yc as [|img yc IH]; simpl; [reflexivity|].
  rewrite IH, !sample_band. reflexivity.
Qed.

Lemma yearCollection_nonempty (yc : EE.ImageCollection) :
  yearCollection = OK yc -> exists img rest, yc = img :: rest.
Proof.
  intros H. apply yearCollection_length in H.
  destruct yc as [|img rest]; [discriminate | eauto].
Qed.

(** [fit], [slope] before and after the mask, and [anyValid], at every
    point, from the yearly images. *)
Lemma slope_spec (yc : EE.ImageCollection) :
  yearCollection = OK yc ->
  exists f s0 a sl,
    fit = OK f /\ slopeOfFit = OK s0 /\ anyValid = OK a /\ slope = OK sl /\
    EE.bandNames f = ["scale"; "offset"] /\
    EE.bandNames s0 = ["NDVI_slope_per_year"] /\
    EE.bandNames sl = ["NDVI_slope_per_year"] /\
    (forall p, EE.sample "scale" f p =
               option_map fst (EE.linearFitList (trendPoints yc p))) /\
    (forall p, EE.sample "NDVI_slope_per_year" s0 p = EE.sample "scale" f p) /\
    (forall p, EE.nthRaster 0 a p =
               option_map (fun m => EE.ofBool (negb (Qeq_bool m (-9999))))
                          (EE.minList (ndviAt yc p))) /\
    (forall p, EE.sample "NDVI_slope_per_year" sl p =
               match EE.sample "NDVI_slope_per_year" s0 p, EE.minList (ndviAt yc p) with
               | Some v, Some m => if Qeq_bool m (-9999) then None else Some v
               | _, _ => None
               end).
Proof.
  intros Hyc. pose proof (yearCollection_shaped yc Hyc) as Hsh.
  destruct (yearCollection_nonempty yc Hyc) as (i & rest & ->).
  assert (Hn : Forall (fun img => exists r, EE.lookup "NDVI" (EE.bands img) = Some r)
                      (i :: rest)).
  { eapply Forall_impl; [|exact Hsh]. intros img (r & k & Hb). rewrite Hb.
    exists r. reflexivity. }
  unfold slope, slopeOfFit, anyValid, fit, paired. rewrite Hyc. cbn [bind bind2 fmap].
  rewrite selectBandsAll_paired by assumption. cbn [bind].
  unfold EE.reduce. rewrite !sameBandCount_paired. cbn [bind].
  rewrite (selectAll_spec "NDVI" _ Hn). cbn [bind].
  rewrite reduceBandwise_single.
  remember (i :: rest) as yc eqn:E. clear E Hsh Hn Hyc i rest.
  do 4 eexists. repeat (split; [reflexivity|]).
  split; [| split; [| split]]; intros p.
  - unfold EE.sample; cbn. now rewrite pairsAt_paired.
  - reflexivity.
  - unfold EE.nthRaster; cbn. unfold EE.mapRaster.
    now rewrite (valuesAt_single "NDVI" yc p).
  - unfold EE.sample; cbn. unfold EE.maskRaster, EE.mapRaster.
    rewrite (valuesAt_single "NDVI" yc p). fold (ndviAt yc p).
    destruct (option_map fst (EE.linearFitList (EE.pairsAt (map pairedImage yc) p)));
      destruct (EE.minList (ndviAt yc p)) as [m|]; cbn; try reflexivity.
    rewrite truthy_ofBool. destruct (Qeq_bool m (-9999)); reflexivity.
Qed.

(** *** Least squares *)

Lemma count_succ (k : nat) :
  inject_Z (Z.of_nat (S k)) == inject_Z (Z.of_nat k) + 1.
Proof. rewrite Nat2Z.inj_succ. unfold Z.succ. rewrite inject_Z_plus. reflexivity. Qed.

Lemma Qsum_cons (x : Q) (l : list Q) : EE.Qsum (x :: l) = x + EE.Qsum l.
Proof. reflexivity. Qed.

Lemma sse_expand (pts : list (Q * Q)) (a b : Q) :
  sse pts a b ==
  EE.Qsum (map (fun xy => snd xy * snd xy) pts)
  - 2 * a * EE.Qsum (map (fun xy => fst xy * snd xy) pts)
  - 2 * b * EE.Qsum (map snd pts)
  + a * a * EE.Qsum (map (fun xy => fst xy * fst xy) pts)
  + 2 * a * b * EE.Qsum (map fst pts)
  + inject_Z (Z.of_nat (List.length pts)) * b * b.
Proof.
  unfold sse. induction pts as [|[x y] pts IH].
  - simpl. ring.
  - rewrite !map_cons, !Qsum_cons, IH. cbn [List.length fst snd].
    rewrite count_succ. ring.
Qed.

(** The residuals of another line, with a zero [y], measure its
    distance from the fitted line. *)
Lemma linearFitList_normal (pts : list (Q * Q)) (a b : Q) :
  EE.linearFitList pts = Some (a, b) ->
  a * EE.Qsum (map (fun xy => fst xy * fst xy) pts) + b * EE.Qsum (map fst pts)
  == EE.Qsum (map (fun xy => fst xy * snd xy) pts) /\
  a * EE.Qsum (map fst pts) + inject_Z (Z.of_nat (List.length pts)) * b
  == EE.Qsum (map snd pts).
Proof.
  unfold EE.linearFitList.
  set (n := inject_Z (Z.of_nat (List.length pts))).
  set (sx := EE.Qsum (map fst pts)). set (sy := EE.Qsum (map snd pts)).
  set (sxx := EE.Qsum (map (fun xy => fst xy * fst xy) pts)).
  set (sxy := EE.Qsum (map (fun xy => fst xy * snd xy) pts)).
  destruct (Qeq_bool (n * sxx - sx * sx) 0) eqn:Hd; [discriminate|].
  intros H; inversion H; subst a b; clear H.
  assert (Hd' : ~ n * sxx - sx * sx == 0).
  { intros E. apply Qeq_eq_bool in E. congruence. }
  assert (Hn : ~ n == 0).
  { intros E. subst n sx sxx.
    destruct pts as [|xy pts]; [apply Hd'; reflexivity|].
    cbn [List.length] in E. rewrite count_succ in E.
    pose proof (Nat2Z.is_nonneg (List.length pts)) as Hp.
    assert (0 <= inject_Z (Z.of_nat (List.length pts))).
    { change 0 with (inject_Z 0). rewrite <- Zle_Qle. assumption. }
    lra. }
  split; field; auto.
Qed.

Lemma quadratic_nonneg (pts : list (Q * Q)) (u v : Q) :
  0 <= u * u * EE.Qsum (map (fun xy => fst xy * fst xy) pts)
       + 2 * u * v * EE.Qsum (map fst pts)
       + inject_Z (Z.of_nat (List.length pts)) * v * v.
Proof.
  induction pts as [|[x y] pts IH].
  - change (0 <= u * u * 0 + 2 * u * v * 0 + 0 * v * v). nra.
  - rewrite !map_cons, !Qsum_cons. cbn [List.length fst snd]. rewrite count_succ.
    assert (Hs : 0 <= (u * x + v) * (u * x + v)).
    { set (t := u * x + v). nra. }
    lra.
Qed.

(** The fitted line has the least sum of squared residuals. *)
Lemma linearFitList_least_squares (pts : list (Q * Q)) (a b : Q) :
  EE.linearFitList pts = Some (a, b) ->
  forall a' b', sse pts a b <= sse pts a' b'.
Proof.
  intros H a' b'. destruct (linearFitList_normal pts a b H) as [H1 H2].
  pose proof (quadratic_nonneg pts (a' - a) (b' - b)) as Hq.
  rewrite !sse_expand.
  set (n := inject_Z (Z.of_nat (List.length pts))) in *.
  set (sx := EE.Qsum (map fst pts)) in *. set (sy := EE.Qsum (map snd pts)) in *.
  set (sxx := EE.Qsum (map (fun xy => fst xy * fst xy) pts)) in *.
  set (sxy := EE.Qsum (map (fun xy => fst xy * snd xy) pts)) in *.
  set (syy := EE.Qsum (map (fun xy => snd xy * snd xy) pts)) in *.
  rewrite <- H1, <- H2. lra.
Qed.


(** *** Bounds of the reducers *)

Lemma Forall_insertSorted (P : Q -> Prop) (x : Q) (l : list Q) :
  P x -> Forall P l -> Forall P (EE.insertSorted x l).
Proof.
  intros Hx. induction 1 as [|y l Hy Hl IH]; simpl; [auto|].
  destruct (Qle_bool x y); auto.
Qed.

Lemma Forall_sortQ (P : Q -> Prop) (l : list Q) :
  Forall P l -> Forall P (EE.sortQ l).
Proof.
  unfold EE.sortQ. induction 1; simpl; [constructor|].
  now apply Forall_insertSorted.
Qed.

Lemma Forall_nth_default (P : Q -> Prop) (l : list Q) (k : nat) (d : Q) :
  Forall P l -> (k < List.length l)%nat -> P (nth k l d).
Proof.
  intros H Hk. rewrite Forall_forall in H. apply H. now apply nth_In.
Qed.

Lemma medianList_bounds (lo hi : Q) (l : list Q) (m : Q) :
  Forall (fun v => lo <= v /\ v <= hi) l ->
  EE.medianList l = Some m -> lo <= m /\ m <= hi.
Proof.
  intros Hl. apply Forall_sortQ in Hl. unfold EE.medianList.
  set (s := EE.sortQ l) in *. remember (List.length s) as n eqn:Hlen.
  destruct n as [|k]; [discriminate|].
  assert (Hhalf : (S k / 2 < List.length s)%nat).
  { rewrite <- Hlen. apply Nat.div_lt; lia. }
  set (h := (S k / 2)%nat) in *.
  assert (Hpred : (h - 1 < List.length s)%nat) by lia.
  pose proof (Forall_nth_default _ s _ 0 Hl Hhalf) as [H1 H2].
  pose proof (Forall_nth_default _ s _ 0 Hl Hpred) as [H3 H4].
  destruct (Nat.even (S k)); intros H; injection H as <-.
  - split; [apply Qle_shift_div_l | apply Qle_shift_div_r]; lra.
  - auto.
Qed.

Lemma minList_In (l : list Q) (m : Q) : EE.minList l = Some m -> In m l.
Proof.
  revert m. induction l as [|x l IH]; simpl; intros m; [discriminate|].
  destruct (EE.minList l) as [m'|].
  - intros H; inversion H; subst; clear H.
    unfold Qmin, GenericMinMax.gmin. destruct (x ?= m'); auto.
  - intros H; inversion H; auto.
Qed.

Lemma minList_some (l : list Q) : l <> [] -> exists m, EE.minList l = Some m.
Proof.
  destruct l as [|x l]; [congruence|]. intros _. simpl.
  destruct (EE.minList l); eauto.
Qed.

Lemma minList_le (l : list Q) (m : Q) :
  EE.minList l = Some m -> Forall (fun v => m <= v) l.
Proof.
  revert m. induction l as [|x l IH]; simpl; intros m; [constructor|].
  destruct (EE.minList l) as [m'|] eqn:Hm.
  - intros H; injection H as <-. constructor.
    + apply Q.le_min_l.
    + eapply Forall_impl; [|apply IH; reflexivity].
      intros v Hv. cbv beta in *. pose proof (Q.le_min_r x m'). lra.
  - intros H; injection H as <-. constructor; [lra|].
    destruct l as [|z l']; [constructor|].
    destruct (minList_some (z :: l')) as [m' Hm']; congruence.
Qed.

(** The least value is a given floor exactly when some value is, as
    long as no value is below the floor. *)
Lemma minList_floor (c : Q) (l : list Q) :
  Forall (fun v => c <= v) l ->
  (exists m, EE.minList l = Some m /\ m == c) <-> (exists v, In v l /\ v == c).
Proof.
  intros Hl. split.
  - intros (m & Hm & E). exists m. split; [now apply minList_In | assumption].
  - intros (v & Hv & E).
    destruct (minList_some l) as [m Hm]; [intros ->; contradiction|].
    exists m. split; [assumption|].
    pose proof (minList_le l m Hm) as Hle. rewrite Forall_forall in Hle, Hl.
    pose proof (Hle v Hv). pose proof (Hl m (minList_In l m Hm)). lra.
Qed.

(** *** The median reducer *)

Lemma filter_length_insertSorted (f : Q -> bool) (x : Q) (l : list Q) :
  List.length (filter f (EE.insertSorted x l)) = List.length (filter f (x :: l)).
Proof.
  induction l as [|y l IH]; [reflexivity|]. cbn [EE.insertSorted].
  destruct (Qle_bool x y); [reflexivity|].
  cbn [filter] in *. destruct (f y), (f x); cbn [List.length] in *; lia.
Qed.

Lemma filter_length_sortQ (f : Q -> bool) (l : list Q) :
  List.length (filter f (EE.sortQ l)) = List.length (filter f l).
Proof.
  induction l as [|x l IH]; [reflexivity|].
  change (EE.sortQ (x :: l)) with (EE.insertSorted x (EE.sortQ l)).
  rewrite filter_length_insertSorted. cbn [filter].
  destruct (f x); cbn [List.length]; lia.
Qed.

Lemma length_sortQ (l : list Q) : List.length (EE.sortQ l) = List.length l.
Proof.
  pose proof (filter_length_sortQ (fun _ => true) l) as H.
  rewrite !filter_true in H. exact H.
Qed.

Lemma insertSorted_sorted (x : Q) (l : list Q) :
  StronglySorted Qle l -> StronglySorted Qle (EE.insertSorted x l).
Proof.
  induction 1 as [|y l Hl IH Hy]; cbn [EE.insertSorted].
  - constructor; constructor.
  - destruct (Qle_bool x y) eqn:E.
    + apply Qle_bool_iff in E. constructor; [now constructor|].
      constructor; [assumption|]. eapply Forall_impl; [|exact Hy].
      intros z Hz. cbv beta in Hz. lra.
    + assert (Hyx : y <= x).
      { apply Qlt_le_weak, Qnot_le_lt. intros H. apply Qle_bool_iff in H. congruence. }
      constructor; [assumption|]. now apply Forall_insertSorted.
Qed.

Lemma sortQ_sorted (l : list Q) : StronglySorted Qle (EE.sortQ l).
Proof.
  induction l as [|x l IH]; [constructor|].
  change (EE.sortQ (x :: l)) with (EE.insertSorted x (EE.sortQ l)).
  now apply insertSorted_sorted.
Qed.

Lemma sorted_firstn (s : list Q) (k : nat) :
  StronglySorted Qle s -> (k < List.length s)%nat ->
  Forall (fun x => x <= nth k s 0) (firstn (S k) s).
Proof.
  intros Hs. revert k. induction Hs as [|a s Hs IH Ha]; intros k Hk; [simpl in Hk; lia|].
  destruct k as [|k].
  - cbn. constructor; [lra | constructor].
  - cbn [nth]. change (firstn (S (S k)) (a :: s)) with (a :: firstn (S k) s).
    cbn [List.length] in Hk. constructor; [|apply IH; lia].
    rewrite Forall_forall in Ha. apply Ha, nth_In. lia.
Qed.

Lemma sorted_skipn (s : list Q) (k : nat) :
  StronglySorted Qle s -> (k < List.length s)%nat ->
  Forall (fun x => nth k s 0 <= x) (skipn k s).
Proof.
  intros Hs. revert k. induction Hs as [|a s Hs IH Ha]; intros k Hk; [simpl in Hk; lia|].
  destruct k as [|k].
  - cbn. constructor; [lra | exact Ha].
  - cbn [nth skipn]. cbn [List.length] in Hk. apply IH. lia.
Qed.

Lemma filter_length_all (f : Q -> bool) (l : list Q) :
  Forall (fun x => f x = true) l -> List.length (filter f l) = List.length l.
Proof.
  induction 1 as [|x l Hx _ IH]; [reflexivity|]. cbn [filter]. rewrite Hx.
  cbn [List.length]. now rewrite IH.
Qed.

Lemma count_firstn (f : Q -> bool) (s : list Q) (k : nat) :
  (k <= List.length s)%nat ->
  Forall (fun x => f x = true) (firstn k s) ->
  (k <= List.length (filter f s))%nat.
Proof.
  intros Hk H. rewrite <- (firstn_skipn k s) at 1. rewrite filter_app, length_app.
  rewrite (filter_length_all f _ H), length_firstn. lia.
Qed.

Lemma count_skipn (f : Q -> bool) (s : list Q) (k : nat) :
  Forall (fun x => f x = true) (skipn k s) ->
  (List.length s - k <= List.length (filter f s))%nat.
Proof.
  intros H. rewrite <- (firstn_skipn k s) at 2. rewrite filter_app, length_app.
  rewrite (filter_length_all f _ H), length_skipn. lia.
Qed.

Lemma sorted_nth_le (s : list Q) (i j : nat) :
  StronglySorted Qle s -> (i <= j)%nat -> (j < List.length s)%nat ->
  nth i s 0 <= nth j s 0.
Proof.
  intros Hs Hij Hj. pose proof (sorted_firstn s j Hs Hj) as H.
  rewrite Forall_forall in H. apply H.
  assert (Hi : (i < List.length (firstn (S j) s))%nat) by (rewrite length_firstn; lia).
  pose proof (nth_In _ 0 Hi) as Hin. rewrite nth_firstn in Hin.
  destruct (Nat.ltb_spec i (S j)); [assumption | lia].
Qed.

(** In a sorted list a value between the entries [i] and [j] has at
    least [i + 1] entries at or below it and all entries from [j] on
    at or above it. *)
Lemma sorted_counts (s : list Q) (i j : nat) (m : Q) :
  StronglySorted Qle s -> (i < List.length s)%nat -> (j < List.length s)%nat ->
  nth i s 0 <= m -> m <= nth j s 0 ->
  (S i <= List.length (filter (fun x => Qle_bool x m) s))%nat /\
  (List.length s - j <= List.length (filter (fun x => Qle_bool m x) s))%nat.
Proof.
  intros Hs Hi Hj Hlo Hhi. split.
  - apply count_firstn; [lia|].
    eapply Forall_impl; [|apply (sorted_firstn s i Hs Hi)].
    intros x Hx. cbv beta in Hx. apply Qle_bool_iff. lra.
  - apply count_skipn.
    eapply Forall_impl; [|apply (sorted_skipn s j Hs Hj)].
    intros x Hx. cbv beta in Hx. apply Qle_bool_iff. lra.
Qed.

Lemma medianList_isMedian (l : list Q) (m : Q) :
  EE.medianList l = Some m -> isMedianOf m l.
Proof.
  unfold EE.medianList, isMedianOf.
  rewrite <- (filter_length_sortQ (fun x => Qle_bool x m) l).
  rewrite <- (filter_length_sortQ (fun x => Qle_bool m x) l).
  rewrite <- (length_sortQ l).
  pose proof (sortQ_sorted l) as Hs. set (s := EE.sortQ l) in *.
  remember (List.length s) as n eqn:Hn. destruct n as [|k]; [discriminate|].
  set (h := (S k / 2)%nat).
  assert (Hh : (h < S k)%nat) by (apply Nat.div_lt; lia).
  pose proof (Nat.div_mod_eq (S k) 2) as Hdm. fold h in Hdm.
  destruct (Nat.even (S k)) eqn:Ev; intros H; injection H as <-.
  - apply Nat.even_spec in Ev. destruct Ev as [c Hc].
    assert (Hhc : h = c) by (subst h; rewrite Hc, Nat.mul_comm; now apply Nat.div_mul).
    assert (Hle : nth (h - 1) s 0 <= nth h s 0) by (apply sorted_nth_le; auto; lia).
    destruct (sorted_counts s (h - 1) h ((nth (h - 1) s 0 + nth h s 0) / 2) Hs)
      as [H1 H2]; try lia.
    + apply Qle_shift_div_l; lra.
    + apply Qle_shift_div_r; lra.
  - assert (Hodd : Nat.odd (S k) = true) by (rewrite <- Nat.negb_even, Ev; reflexivity).
    apply Nat.odd_spec in Hodd. destruct Hodd as [c Hc].
    destruct (sorted_counts s h h (nth h s 0) Hs) as [H1 H2]; try lia; try lra.
    rewrite <- Hn in H2.
    assert (Hhc : (S k <= 2 * h + 1)%nat).
    { pose proof (Nat.mod_upper_bound (S k) 2). lia. }
    lia.
Qed.

(** *** A well-formed catalog *)

Lemma mapM_post {A B} (f : A -> result B) (P : B -> Prop) (l : list A) :
  (forall a, In a l -> exists b, f a = OK b /\ P b) ->
  exists l', mapM f l = OK l' /\ Forall P l'.
Proof.
  induction l as [|a l IH]; intros H; simpl.
  - exists []. split; [reflexivity | constructor].
  - destruct (H a (or_introl Logic.eq_refl)) as (b & -> & Hb).
    destruct IH as (bs & -> & Hbs); [intros; apply H; now right|].
    exists (b :: bs). split; [reflexivity | now constructor].
Qed.

Lemma maskS2SR_wellFormed (img : EE.Image) :
  wellFormedS2 img = true ->
  exists m, maskS2SR img = OK m /\ wellFormedS2 m = true.
Proof.
  intros Hw. destruct (maskS2SR_spec img) as (m & Hm & Hn & _).
  exists m. split; [assumption|]. unfold wellFormedS2, hasBand in *. now rewrite Hn.
Qed.

Lemma addNDVIBands_wellFormed (m : EE.Image) :
  wellFormedS2 m = true ->
  exists o, addNDVIBands m = OK o /\ ndviBounded o.
Proof.
  unfold wellFormedS2. rewrite !hasBand_lookup. intros Hw.
  pose proof (addNDVIBands_spec m) as Hs.
  destruct (EE.lookup "B8" (EE.bands m)) as [r8|]; [|discriminate].
  destruct (EE.lookup "B4" (EE.bands m)) as [r4|]; [|discriminate].
  destruct (EE.lookup "NDVI" (EE.bands m)) as [r|] eqn:Hn; [discriminate|].
  eexists; split; [exact Hs|]. intros p v. unfold EE.sample.
  cbn [EE.bands EE.withBands]. rewrite lookup_addBand, Hn. unfold EE.ndRaster.
  destruct (r8 p) as [a|]; [|discriminate]. destruct (r4 p) as [b|]; [|discriminate].
  apply nd_bounds.
Qed.

Lemma collectionForYear_total (y : Z) :
  catalogOK ->
  exists col, collectionForYear y = OK col /\ Forall ndviBounded col.
Proof.
  intros Hc. unfold collectionForYear, sensor.
  set (L := EE.filterBounds region _).
  assert (HL : Forall (fun img => wellFormedS2 img = true) L).
  { apply Forall_forall. intros img Hin. subst L. unfold EE.filterBounds, EE.filterDate in Hin.
    apply filter_In in Hin. destruct Hin as [Hin _].
    apply filter_In in Hin. destruct Hin as [Hin _].
    unfold catalogOK in Hc. rewrite forallb_forall in Hc. auto. }
  destruct (mapM_post maskS2SR (fun m => wellFormedS2 m = true) L) as (ms & Hms & Hw).
  { intros img Hin. rewrite Forall_forall in HL. apply maskS2SR_wellFormed; auto. }
  rewrite Hms. cbn [bind]. apply mapM_post.
  intros m Hm. rewrite Forall_forall in Hw. apply addNDVIBands_wellFormed; auto.
Qed.

Lemma ndviAt_Forall (P : Q -> Prop) (col : list EE.Image) (p : EE.Point) :
  Forall (fun img => forall v, EE.sample "NDVI" img p = Some v -> P v) col ->
  Forall P (ndviAt col p).
Proof.
  unfold ndviAt. induction 1 as [|img col Hi _ IH]; simpl; [constructor|].
  apply Forall_app. split; [|assumption].
  destruct (EE.sample "NDVI" img p) as [v|]; simpl; auto.
Qed.

Lemma ndviAt_In (col : list EE.Image) (p : EE.Point) (v : Q) :
  In v (ndviAt col p) <-> exists img, In img col /\ EE.sample "NDVI" img p = Some v.
Proof.
  unfold ndviAt. rewrite in_flat_map. split; intros (img & Hin & H); exists img;
    (split; [assumption|]).
  - destruct (EE.sample "NDVI" img p) as [w|]; simpl in H; [|contradiction].
    destruct H as [->|[]]. reflexivity.
  - rewrite H. simpl. auto.
Qed.

Lemma yearlyImage_total (y : Z) :
  catalogOK -> exists img, yearlyImage y = OK img /\ aboveNodata img.
Proof.
  intros Hc. destruct (collectionForYear_total y Hc) as (col & Hcol & Hb).
  destruct (yearlyImage_spec y col Hcol) as (r & Hy & Hr).
  eexists; split; [exact Hy|]. intros p v. unfold EE.sample; cbn. unfold EE.clipRaster.
  destruct (EE.contains region p); [|discriminate]. rewrite Hr.
  destruct col as [|i col'].
  - intros H; injection H as <-. lra.
  - intros H. apply (medianList_bounds (-1) 1) in H; [lra|].
    apply ndviAt_Forall. eapply Forall_impl; [|exact Hb]. intros img Hi w Hw. eauto.
Qed.

Lemma yearCollection_total :
  catalogOK -> exists yc, yearCollection = OK yc /\ Forall aboveNodata yc.
Proof.
  intros Hc. unfold yearCollection, yearlyList.
  destruct (mapM_post yearlyImage aboveNodata years) as (l & Hl & Ha).
  { intros y _. now apply yearlyImage_total. }
  rewrite Hl. exists l. split; [reflexivity | assumption].
Qed.

(** *** The points of the trend *)

Lemma trendPoints_years (yc : EE.ImageCollection) (p : EE.Point) :
  yearCollection = OK yc ->
  trendPoints yc p =
  flat_map (fun yi => match EE.sample "NDVI" (snd yi) p with
                      | Some v => [(inject_Z (fst yi), v)]
                      | None => []
                      end) (combine years yc).
Proof.
  intros H. apply yearCollection_Forall2 in H. unfold trendPoints.
  induction H as [|y img ys imgs Hy _ IH]; [reflexivity|].
  cbn [combine flat_map fst snd]. rewrite IH. f_equal.
  destruct (yearlyImage_inv y img Hy) as (col & r & _ & -> & _). reflexivity.
Qed.

Lemma slope_masked_at_nodata (yc : EE.ImageCollection) (sl : EE.Image) (p : EE.Point) :
  yearCollection = OK yc -> slope = OK sl ->
  (exists m, EE.minList (ndviAt yc p) = Some m /\ m == -9999) ->
  EE.sample "NDVI_slope_per_year" sl p = None.
Proof.
  intros Hyc Hsl (m & Hm & E).
  destruct (slope_spec yc Hyc) as (f & s0 & a & sl' & _ & _ & _ & Hsl' & _ & _ & _ & _ & _ & _ & Hs).
  rewrite Hsl in Hsl'. injection Hsl' as <-. rewrite Hs, Hm.
  destruct (EE.sample "NDVI_slope_per_year" s0 p); [|reflexivity].
  now rewrite (Qeq_eq_bool _ _ E).
Qed.

Lemma nodata_min_iff (yc : EE.ImageCollection) (p : EE.Point) :
  Forall aboveNodata yc ->
  (exists m, EE.minList (ndviAt yc p) = Some m /\ m == -9999) <->
  (exists img v, In img yc /\ EE.sample "NDVI" img p = Some v /\ v == -9999).
Proof.
  intros Ha. rewrite minList_floor.
  - split.
    + intros (v & Hv & E). apply ndviAt_In in Hv. destruct Hv as (img & Hi & Hs).
      exists img, v. auto.
    + intros (img & v & Hi & Hs & E). exists v. split; [|assumption].
      apply ndviAt_In. eauto.
  - apply ndviAt_Forall. eapply Forall_impl; [|exact Ha].
    intros img Hi v Hv. exact (Hi p v Hv).
Qed.

(** *** Region reductions *)

Lemma reduceRegion_within (r : EE.Reducer.t) (img : EE.Image) :
  withinMaxPixels ->
  reduceRegion r region studyScale true maxPixels img =
  OK (EE.reducePixels r (grid region studyScale) img).
Proof.
  unfold withinMaxPixels, reduceRegion. intros H.
  apply Z.leb_le in H. now rewrite H.
Qed.

Lemma reduceRegion_scale (r : EE.Reducer.t) (img : EE.Image) (d : EE.Dictionary) :
  reduceRegion r region studyScale true maxPixels img = OK d ->
  exists s, d = EE.reducePixels r (grid region s) img.
Proof.
  unfold reduceRegion.
  destruct (Z.of_nat (List.length (grid region studyScale)) <=? maxPixels)%Z;
    intros H; injection H as <-; eauto.
Qed.

Lemma meanFeature_spec (y : Z) (img : EE.Image) :
  yearlyImage y = OK img ->
  withinMaxPixels ->
  meanFeature img =
  OK (EE.mkFeature None [("year", Some (inject_Z y)); ("meanNDVI", regionalMean img)]).
Proof.
  intros Hy Hw. destruct (yearlyImage_inv y img Hy) as (col & r & _ & -> & _).
  unfold meanFeature. cbn [EE.select EE.bands EE.lookup String.eqb Ascii.eqb Bool.eqb bind].
  rewrite reduceRegion_within by assumption. reflexivity.
Qed.

Lemma meanFeature_scale (y : Z) (img : EE.Image) (f : EE.Feature) :
  yearlyImage y = OK img ->
  meanFeature img = OK f ->
  exists s,
    EE.dictGet "meanNDVI" (EE.featureProperties f) =
    EE.meanList (flat_map (fun p => EE.valid (EE.sample "NDVI" img p)) (grid region s)).
Proof.
  intros Hy. destruct (yearlyImage_inv y img Hy) as (col & r & _ & -> & _).
  unfold meanFeature. cbn [EE.select EE.bands EE.lookup String.eqb Ascii.eqb Bool.eqb bind].
  intros H. apply bind_OK in H. destruct H as (d & Hd & Hf).
  apply reduceRegion_scale in Hd. destruct Hd as (s & ->).
  injection Hf as <-. exists s. reflexivity.
Qed.

Lemma meanPerYearFC_spec (yc : EE.ImageCollection) :
  yearCollection = OK yc ->
  withinMaxPixels ->
  meanPerYearFC =
  OK (map (fun yi => EE.mkFeature None [("year", Some (inject_Z (fst yi)));
                                        ("meanNDVI", regionalMean (snd yi))])
          (combine years yc)).
Proof.
  intros Hyc Hw. unfold meanPerYearFC. rewrite Hyc. cbn [bind].
  apply yearCollection_Forall2 in Hyc. apply mapM_Forall2.
  induction Hyc as [|y img ys imgs Hy _ IH]; [constructor|].
  cbn [combine map fst snd]. constructor; [|exact IH].
  now apply meanFeature_spec.
Qed.

Lemma area_sum (test : Q -> bool) (rs : EE.Raster) (px : list EE.Point) :
  EE.Qsum (flat_map
             (fun p => EE.valid
                         (EE.zipRaster Qmult (EE.mapRaster (fun v => EE.ofBool (test v)) rs)
                                       (fun q => Some (pixelAreaAt q)) p))
             px)
  == EE.Qsum (map pixelAreaAt
                  (filter (fun p => match rs p with
                                    | Some s => test s
                                    | None => false
                                    end) px)).
Proof.
  induction px as [|p px IH]; [reflexivity|].
  cbn [flat_map filter]. unfold EE.zipRaster at 1, EE.mapRaster at 1.
  destruct (rs p) as [s|]; cbn [option_map EE.valid app]; [|exact IH].
  destruct (test s); cbn [EE.ofBool map]; rewrite ?Qsum_cons, IH; ring.
Qed.

Lemma single_band (img : EE.Image) (n : string) :
  EE.bandNames img = [n] -> exists r, EE.bands img = [(n, r)].
Proof.
  unfold EE.bandNames. destruct (EE.bands img) as [|[k r] [|? ?]]; try discriminate.
  simpl. intros H; injection H as ->. eauto.
Qed.

Lemma area_spec (test : Q -> bool) (sl : EE.Image) :
  EE.bandNames sl = ["NDVI_slope_per_year"] ->
  withinMaxPixels ->
  exists total,
    bind (bind2 EE.multiply (OK (EE.mapBands (fun v => EE.ofBool (test v)) sl))
                (OK pixelArea))
         (reduceRegion EE.Reducer.sum region studyScale true maxPixels)
    = OK [("NDVI_slope_per_year", Some total)] /\
    total == areaWhere test sl.
Proof.
  intros Hn Hw. destruct (single_band sl _ Hn) as (rs & Hb).
  unfold EE.multiply, EE.binop, EE.mapBands, pixelArea. cbn [bind2 bind EE.bands EE.withBands].
  rewrite Hb. cbn [map fst snd bind]. eexists; split.
  - rewrite reduceRegion_within by assumption.
    unfold EE.reducePixels. cbn [EE.bands EE.withBands map fst snd EE.Reducer.run].
    reflexivity.
  - rewrite area_sum. unfold areaWhere, EE.sample.
    rewrite Hb. cbn [EE.lookup]. rewrite String.eqb_refl. reflexivity.
Qed.

(** *** The filters of a year *)

Lemma inYear_iff (y : Z) (img : EE.Image) (t : EE.Date) :
  EE.time_start img = Some t ->
  (1 <= EE.month t)%Z -> (1 <= EE.day t)%Z -> (0 <= EE.millis t)%Z ->
  inYear y img = true <-> EE.year t = y.
Proof.
  intros Ht Hm Hd Hms. unfold inYear. rewrite Ht.
  unfold EE.dateLe, EE.dateLt, EE.dateKey. cbn [EE.lexLt EE.year EE.month EE.day EE.millis].
  repeat match goal with
         | |- context [(?a <? ?b)%Z] => destruct (Z.ltb_spec a b)
         | |- context [(?a =? ?b)%Z] => destruct (Z.eqb_spec a b)
         end;
    cbn [negb andb orb]; split; intros; solve [lia | discriminate | reflexivity].
Qed.

Lemma filters_of_year (y : Z) :
  EE.filterBounds region
    (EE.filterDate (EE.fromYMD y 1 1) (EE.advanceYear 1 (EE.fromYMD y 1 1))
                   (catalog "COPERNICUS/S2_SR"))
  = filter overRegion (filter (inYear y) (catalog "COPERNICUS/S2_SR")).
Proof. reflexivity. Qed.

Lemma collectionForYear_iff (y : Z) (col : EE.ImageCollection) :
  collectionForYear y = OK col <->
  exists masked,
    Forall2 (fun img m => maskS2SR img = OK m)
            (filter overRegion (filter (inYear y) (catalog "COPERNICUS/S2_SR")))
            masked /\
    Forall2 (fun m out => addNDVIBands m = OK out) masked col.
Proof.
  rewrite <- filters_of_year. split.
  - intros H. apply collectionForYear_inv in H. destruct H as (masked & H1 & H2).
    exists masked. split; now apply mapM_Forall2.
  - intros (masked & H1 & H2). apply mapM_Forall2 in H1. apply mapM_Forall2 in H2.
    unfold collectionForYear, sensor. rewrite H1. exact H2.
Qed.

Lemma addNDVIBands_footprint (m out : EE.Image) :
  addNDVIBands m = OK out -> EE.footprint out = EE.footprint m.
Proof.
  intros H. pose proof (addNDVIBands_spec m) as Hs.
  destruct (EE.lookup "B8" (EE.bands m)) as [r8|];
    [destruct (EE.lookup "B4" (EE.bands m)) as [r4|]|].
  - rewrite Hs in H. injection H as <-. reflexivity.
  - destruct Hs as [e He]. rewrite He in H. discriminate.
  - destruct Hs as [e He]. rewrite He in H. discriminate.
Qed.

Lemma collectionForYear_overRegion (y : Z) (col : EE.ImageCollection) (img : EE.Image) :
  collectionForYear y = OK col -> In img col -> overRegion img = true.
Proof.
  intros H Hin. apply collectionForYear_inv in H. destruct H as (masked & H1 & H2).
  destruct (mapM_In _ _ _ _ H2 Hin) as (m & Hm & Hadd).
  destruct (mapM_In _ _ _ _ H1 Hm) as (src & Hsrc & Hmask).
  rewrite filters_of_year in Hsrc. apply filter_In in Hsrc. destruct Hsrc as [_ Ho].
  destruct (maskS2SR_spec src) as (m' & Hm' & _ & _ & Hf & _).
  rewrite Hmask in Hm'. injection Hm' as <-.
  unfold overRegion in *. now rewrite (addNDVIBands_footprint m img Hadd), Hf.
Qed.

(** *** What the reducers return *)

Lemma medianList_some (l : list Q) : l <> [] -> exists m, EE.medianList l = Some m.
Proof.
  intros Hne. unfold EE.medianList. rewrite length_sortQ.
  destruct l as [|x l]; [contradiction Hne; reflexivity|]. cbn [List.length].
  destruct (Nat.even (S (List.length l))); eauto.
Qed.

Lemma meanList_isMean (l : list Q) : isMeanOf (EE.meanList l) l.
Proof.
  destruct l as [|x l]; [exact I|]. unfold isMeanOf, EE.meanList.
  change (fold_right Qplus 0 (x :: l)) with (EE.Qsum (x :: l)).
  set (n := inject_Z (Z.of_nat (List.length (x :: l)))).
  assert (Hn : ~ n == 0).
  { subst n. cbn [List.length]. rewrite count_succ.
    assert (0 <= inject_Z (Z.of_nat (List.length l))).
    { change 0 with (inject_Z 0). rewrite <- Zle_Qle. apply Nat2Z.is_nonneg. }
    lra. }
  field. exact Hn.
Qed.

Lemma sumsq_expand (pts : list (Q * Q)) (u v : Q) :
  EE.Qsum (map (fun xy => (u * fst xy + v) * (u * fst xy + v)) pts) ==
  u * u * EE.Qsum (map (fun xy => fst xy * fst xy) pts)
  + 2 * u * v * EE.Qsum (map fst pts)
  + inject_Z (Z.of_nat (List.length pts)) * v * v.
Proof.
  induction pts as [|[x y] pts IH].
  - change (0 == u * u * 0 + 2 * u * v * 0 + 0 * v * v). ring.
  - rewrite !map_cons, !Qsum_cons, IH. cbn [List.length fst snd].
    rewrite count_succ. ring.
Qed.

Lemma sumsq_zero (g : Q * Q -> Q) (pts : list (Q * Q)) :
  EE.Qsum (map (fun xy => g xy * g xy) pts) == 0 ->
  Forall (fun xy => g xy == 0) pts.
Proof.
  assert (Hnn : forall l, 0 <= EE.Qsum (map (fun xy => g xy * g xy) l)).
  { induction l as [|xy l IH]; [discriminate|].
    rewrite map_cons, Qsum_cons. set (t := g xy). nra. }
  induction pts as [|xy pts IH]; intros H; [constructor|].
  rewrite map_cons, Qsum_cons in H. pose proof (Hnn pts) as Hp.
  assert (Ht : 0 <= g xy * g xy) by (set (t := g xy); nra).
  assert (H0 : g xy * g xy == 0) by lra.
  constructor; [|apply IH; lra].
  destruct (Qmult_integral _ _ H0); assumption.
Qed.

(** The fit has a value as soon as two of the points differ in [x]. *)
Lemma linearFitList_defined (pts : list (Q * Q)) (p1 p2 : Q * Q) :
  In p1 pts -> In p2 pts -> ~ fst p1 == fst p2 ->
  exists ab, EE.linearFitList pts = Some ab.
Proof.
  intros H1 H2 Hne. unfold EE.linearFitList.
  set (n := inject_Z (Z.of_nat (List.length pts))).
  set (sx := EE.Qsum (map fst pts)).
  set (sxx := EE.Qsum (map (fun xy => fst xy * fst xy) pts)).
  destruct (Qeq_bool (n * sxx - sx * sx) 0) eqn:Hd; [|eauto].
  exfalso. apply Qeq_bool_eq in Hd.
  assert (Hz : EE.Qsum (map (fun xy => (n * fst xy + - sx) * (n * fst xy + - sx)) pts) == 0).
  { rewrite sumsq_expand. fold n sx sxx.
    setoid_replace (n * n * sxx + 2 * n * - sx * sx + n * - sx * - sx)
      with (n * (n * sxx - sx * sx)) by ring.
    rewrite Hd. ring. }
  apply (sumsq_zero (fun xy => n * fst xy + - sx)) in Hz.
  rewrite Forall_forall in Hz. pose proof (Hz p1 H1) as E1. pose proof (Hz p2 H2) as E2.
  cbv beta in E1, E2.
  assert (Hn : 0 < n).
  { subst n. destruct pts as [|xy pts]; [contradiction|]. cbn [List.length].
    rewrite count_succ.
    assert (0 <= inject_Z (Z.of_nat (List.length pts))).
    { change 0 with (inject_Z 0). rewrite <- Zle_Qle. apply Nat2Z.is_nonneg. }
    lra. }
  apply Hne. assert (E : n * (fst p1 - fst p2) == 0) by lra.
  destruct (Qmult_integral _ _ E); lra.
Qed.

Lemma trendPoints_In (yc : EE.ImageCollection) (p : EE.Point) (y : Z) (img : EE.Image)
      (v : Q) :
  yearCollection = OK yc ->
  In (y, img) (combine years yc) -> EE.sample "NDVI" img p = Some v ->
  In (inject_Z y, v) (trendPoints yc p).
Proof.
  intros Hyc Hin Hv. rewrite (trendPoints_years yc p Hyc). apply in_flat_map.
  exists (y, img). split; [assumption|]. cbn [fst snd]. rewrite Hv. left. reflexivity.
Qed.

(** Two years with an NDVI value at a point give the fit a value
    there. *)
Lemma fit_defined (yc : EE.ImageCollection) (p : EE.Point)
      (y1 y2 : Z) (img1 img2 : EE.Image) (v1 v2 : Q) :
  yearCollection = OK yc ->
  In (y1, img1) (combine years yc) -> In (y2, img2) (combine years yc) ->
  y1 <> y2 ->
  EE.sample "NDVI" img1 p = Some v1 -> EE.sample "NDVI" img2 p = Some v2 ->
  exists ab, EE.linearFitList (trendPoints yc p) = Some ab.
Proof.
  intros Hyc H1 H2 Hne Hv1 Hv2.
  apply (linearFitList_defined _ (inject_Z y1, v1) (inject_Z y2, v2)).
  - eapply trendPoints_In; eauto.
  - eapply trendPoints_In; eauto.
  - cbn [fst]. intros E. apply Hne. unfold Qeq in E. simpl in E. lia.
Qed.

(** Where the reported slope has a value. *)
Lemma slope_value_iff (yc : EE.ImageCollection) (f sl : EE.Image) (p : EE.Point) (v : Q) :
  yearCollection = OK yc -> fit = OK f -> slope = OK sl ->
  EE.sample "NDVI_slope_per_year" sl p = Some v <->
  EE.sample "scale" f p = Some v /\
  exists m, EE.minList (ndviAt yc p) = Some m /\ ~ m == -9999.
Proof.
  intros Hyc Hf Hsl.
  destruct (slope_spec yc Hyc)
    as (f' & s0 & a & sl' & Hf' & _ & _ & Hsl' & _ & _ & _ & _ & Hsame & _ & Hmask).
  rewrite Hf in Hf'. injection Hf' as <-. rewrite Hsl in Hsl'. injection Hsl' as <-.
  rewrite Hmask, Hsame.
  destruct (EE.sample "scale" f p) as [w|];
    [|split; [discriminate | intros [H _]; discriminate]].
  destruct (EE.minList (ndviAt yc p)) as [m|];
    [|split; [discriminate | intros (_ & m & H & _); discriminate]].
  destruct (Qeq_bool m (-9999)) eqn:E; split.
  - discriminate.
  - intros (_ & m' & Hm' & Hne). injection Hm' as <-.
    apply Qeq_bool_eq in E. contradiction.
  - intros H. split; [assumption|]. exists m. split; [reflexivity|].
    intros Hq. apply Qeq_eq_bool in Hq. congruence.
  - intros [H _]. assumption.
Qed.

Lemma reduceRegion_scaleUsed (r : EE.Reducer.t) (img : EE.Image) :
  reduceRegion r region studyScale true maxPixels img =
  OK (EE.reducePixels r (grid (EE.Rectangle 88.35 23.05 88.55 23.35) scaleUsed) img).
Proof.
  unfold reduceRegion, scaleUsed.
  change region with (EE.Rectangle 88.35 23.05 88.55 23.35).
  destruct (Z.of_nat _ <=? maxPixels)%Z; reflexivity.
Qed.

(** *** The votes of the two masks *)

Lemma sclVote_sample (img : EE.Image) (p : EE.Point) :
  sclVote img p =
  if hasBand "SCL" img then option_map sclKeeps (EE.sample "SCL" img p) else Some true.
Proof.
  unfold sclVote, EE.sample. rewrite hasBand_lookup.
  destruct (EE.lookup "SCL" (EE.bands img)); reflexivity.
Qed.

Lemma qaVote_sample (img : EE.Image) (p : EE.Point) :
  qaVote img p =
  if hasBand "QA60" img then option_map (fun q => Qeq_bool q 0) (EE.sample "QA60" img p)
  else if hasBand "MSK_CLDPRB" img
       then option_map (fun c => negb (Qle_bool 50 c)) (EE.sample "MSK_CLDPRB" img p)
       else Some true.
Proof.
  unfold qaVote, EE.sample. rewrite !hasBand_lookup.
  destruct (EE.lookup "QA60" (EE.bands img)); [reflexivity|].
  destruct (EE.lookup "MSK_CLDPRB" (EE.bands img)); reflexivity.
Qed.


(** *** Delegated masking *)

Lemma maskBit_valid (o o' : option Q) :
  maskBit o = maskBit o' -> (o = None <-> o' = None).
Proof. destruct o, o'; cbn; intros H; split; intros E; congruence. Qed.



(* ------------------------------------------------------------------ *)
(** ** The claims *)

Lemma mapM_In_result {A B} (f : A -> result B) (l : list A) (l' : list B)
      (a : A) (b : B) :
  mapM f l = OK l' -> In a l -> f a = OK b -> In b l'.
Proof.
  intros H Hin Hf. destruct (mapM_In_l _ _ _ _ H Hin) as (b' & Hb' & Hf').
  rewrite Hf in Hf'. inversion Hf'; subst. assumption.
Qed.

(** C1.  For a year whose filtered, masked collection [col] is not
    empty, [yearlyImage] returns an image (the one [yearlyList] holds
    for that year) whose [NDVI] band is, at every point of the region,
    the median of the unmasked [NDVI] values of the images of [col]
    at that point, and is masked outside the region.  At a point of
    the region where some image of [col] has an NDVI value the band
    has a value, and the value is a median indeed: at least half of
    the values are at or below it and at least half at or above it. *)
Theorem yearly_ndvi_is_clipped_median (y : Z) (col : EE.ImageCollection) :
  collectionForYear y = OK col ->
  col <> [] ->
  exists img,
    yearlyImage y = OK img /\
    (forall l, In y years -> yearlyList = OK l -> In img l) /\
    (forall p, EE.sample "NDVI" img p =
               if EE.contains region p then EE.medianList (ndviAt col p) else None) /\
    (forall p m, EE.sample "NDVI" img p = Some m -> isMedianOf m (ndviAt col p)) /\
    (forall p, EE.contains region p = true -> ndviAt col p <> [] ->
               exists m, EE.sample "NDVI" img p = Some m /\
                         isMedianOf m (ndviAt col p)) /\
    (forall p, EE.contains region p = false \/ ndviAt col p = [] ->
               EE.sample "NDVI" img p = None).
Proof.
  intros Hcol Hne. destruct (yearlyImage_spec y col Hcol) as (r & Hy & Hr).
  assert (Hs : forall p, EE.sample "NDVI"
                 (EE.mkImage [("NDVI", EE.clipRaster region r);
                              ("t", fun _ => Some (inject_Z y))]
                             [("year", inject_Z y)] (Some region) None) p =
               if EE.contains region p then EE.medianList (ndviAt col p) else None).
  { intros p. unfold EE.sample; cbn. unfold EE.clipRaster. rewrite Hr.
    destruct col; [contradiction Hne; reflexivity | reflexivity]. }
  eexists; split; [exact Hy|]. split; [|split; [|split; [|split]]].
  - intros l Hin Hl. eapply mapM_In_result; eauto.
  - exact Hs.
  - intros p m Hm. rewrite Hs in Hm.
    destruct (EE.contains region p); [|discriminate].
    now apply medianList_isMedian.
  - intros p Hp Hv. rewrite Hs, Hp.
    destruct (medianList_some _ Hv) as [m Hm]. exists m. split; [assumption|].
    now apply medianList_isMedian.
  - intros p [Hp | Hv]; rewrite Hs.
    + now rewrite Hp.
    + rewrite Hv. destruct (EE.contains region p); reflexivity.
Qed.


Lemma keepS2_no_bands (image : EE.Image) (p : EE.Point) :
  hasBand "SCL" image = false ->
  hasBand "QA60" image = false ->
  hasBand "MSK_CLDPRB" image = false ->
  keepS2 image p = true.
Proof.
  rewrite !hasBand_lookup. unfold keepS2, sclVote, qaVote.
  destruct (EE.lookup "SCL" (EE.bands image)); [discriminate|].
  destruct (EE.lookup "QA60" (EE.bands image)); [discriminate|].
  destruct (EE.lookup "MSK_CLDPRB" (EE.bands image)); [discriminate|].
  reflexivity.
Qed.

Lemma sclMask_no_band (image : EE.Image) :
  hasBand "SCL" image = false -> sclMask image = OK (EE.constant 1).
Proof. unfold sclMask, hasBand. intros ->. reflexivity. Qed.

Lemma qaMask_no_band (image : EE.Image) :
  hasBand "QA60" image = false ->
  hasBand "MSK_CLDPRB" image = false ->
  qaMask image = OK (EE.constant 1).
Proof. unfold qaMask, hasBand. intros -> ->. reflexivity. Qed.

(** C8.  [maskS2SR] returns an image for every input, with the bands
    of the input.  Without an [SCL] band the SCL mask is the constant
    1 and no band is selected; without [QA60] and [MSK_CLDPRB] the QA
    mask is the constant 1.  When the three bands are missing the
    combined mask is 1 everywhere and the result has every pixel of
    the input. *)
Theorem maskS2SR_never_fails (image : EE.Image) :
  (exists out, maskS2SR image = OK out /\ EE.bandNames out = EE.bandNames image) /\
  (hasBand "SCL" image = false -> sclMask image = OK (EE.constant 1)) /\
  (hasBand "QA60" image = false -> hasBand "MSK_CLDPRB" image = false ->
   qaMask image = OK (EE.constant 1)) /\
  (hasBand "SCL" image = false ->
   hasBand "QA60" image = false ->
   hasBand "MSK_CLDPRB" image = false ->
   exists m out,
     combined image = OK m /\ (forall p, EE.nthRaster 0 m p = Some 1) /\
     maskS2SR image = OK out /\
     forall b p, EE.sample b out p = EE.sample b image p).
Proof.
  destruct (maskS2SR_spec image) as (out & Ho & Hn & _ & _ & _ & Hs).
  split; [exists out; auto|].
  split; [apply sclMask_no_band|].
  split; [apply qaMask_no_band|].
  intros H1 H2 H3. unfold combined.
  rewrite (sclMask_no_band image H1), (qaMask_no_band image H2 H3).
  eexists; exists out. split; [reflexivity|]. split; [reflexivity|].
  split; [assumption|]. intros b p. rewrite Hs, keepS2_no_bands; auto.
Qed.



(** C2.  Once the yearly collection is evaluated, [fit], [slope] as
    first assigned and [slope] as reported evaluate too.  At every
    point the inputs of the regression are the pairs (year, NDVI) of
    the yearly images that have an NDVI value there, the year being
    the value of band [t]; as soon as two years have an NDVI value at
    the point the [scale] band of [fit] has a value; that value is
    the slope of the least-squares line of the pairs (no other line
    has a smaller sum of squared residuals); the band
    [NDVI_slope_per_year] is that [scale] band; and the reported
    slope has a value exactly where [scale] has one and the least
    NDVI of the years is not -9999, the value being that of
    [scale]. *)
Theorem slope_is_least_squares_trend (yc : EE.ImageCollection) :
  yearCollection = OK yc ->
  exists f s0 sl,
    fit = OK f /\ slopeOfFit = OK s0 /\ slope = OK sl /\
    EE.bandNames sl = ["NDVI_slope_per_year"] /\
    forall p,
      trendPoints yc p =
        flat_map (fun yi => match EE.sample "NDVI" (snd yi) p with
                            | Some v => [(inject_Z (fst yi), v)]
                            | None => []
                            end) (combine years yc) /\
      EE.sample "scale" f p = option_map fst (EE.linearFitList (trendPoints yc p)) /\
      (forall a, EE.sample "scale" f p = Some a ->
                 exists b, EE.linearFitList (trendPoints yc p) = Some (a, b) /\
                           forall a' b', sse (trendPoints yc p) a b
                                         <= sse (trendPoints yc p) a' b') /\
      EE.sample "NDVI_slope_per_year" s0 p = EE.sample "scale" f p /\
      (forall v, EE.sample "NDVI_slope_per_year" sl p = Some v ->
                 EE.sample "scale" f p = Some v) /\
      (forall y1 y2 img1 img2 v1 v2,
          In (y1, img1) (combine years yc) -> In (y2, img2) (combine years yc) ->
          y1 <> y2 ->
          EE.sample "NDVI" img1 p = Some v1 -> EE.sample "NDVI" img2 p = Some v2 ->
          exists a, EE.sample "scale" f p = Some a) /\
      (forall v, EE.sample "NDVI_slope_per_year" sl p = Some v <->
                 EE.sample "scale" f p = Some v /\
                 exists m, EE.minList (ndviAt yc p) = Some m /\ ~ m == -9999).
Proof.
  intros Hyc.
  destruct (slope_spec yc Hyc)
    as (f & s0 & a & sl & Hf & Hs0 & _ & Hsl & _ & _ & Hn & Hscale & Hsame & _ & Hmask).
  exists f, s0, sl. repeat (split; [assumption|]). intros p.
  split; [now apply trendPoints_years|]. split; [apply Hscale|].
  split; [|split; [apply Hsame|split; [|split]]].
  - intros k Hk. rewrite Hscale in Hk.
    destruct (EE.linearFitList (trendPoints yc p)) as [[a0 b0]|] eqn:Hfit; [|discriminate].
    injection Hk as <-. exists b0. split; [reflexivity|].
    now apply linearFitList_least_squares.
  - intros v Hv. rewrite Hmask, Hsame in Hv.
    destruct (EE.sample "scale" f p) as [w|]; [|discriminate].
    destruct (EE.minList (ndviAt yc p)) as [m|]; [|discriminate].
    destruct (Qeq_bool m (-9999)); [discriminate | assumption].
  - intros y1 y2 img1 img2 v1 v2 H1 H2 Hne Hv1 Hv2.
    destruct (fit_defined yc p y1 y2 img1 img2 v1 v2 Hyc H1 H2 Hne Hv1 Hv2) as [[a0 b0] Hab].
    exists a0. rewrite Hscale, Hab. reflexivity.
  - intros v. now apply slope_value_iff.
Qed.

(** C10.  With a well-formed catalog: a year whose collection is empty
    gets the constant -9999 over the region as its [NDVI] band; the
    yearly collection evaluates and holds yearEnd - yearStart + 1
    images; the least NDVI value of the years at a point is -9999
    exactly when the composite of some year is -9999 there; and at
    every such point the reported slope is masked. *)
Theorem nodata_years_mask_the_slope :
  catalogOK ->
  (forall y, collectionForYear y = OK [] ->
             exists img,
               yearlyImage y = OK img /\
               forall p, EE.sample "NDVI" img p =
                         if EE.contains region p then Some (-9999) else None) /\
  exists yc sl,
    yearCollection = OK yc /\ slope = OK sl /\
    List.length yc = Z.to_nat (yearEnd - yearStart + 1) /\
    forall p,
      ((exists m, EE.minList (ndviAt yc p) = Some m /\ m == -9999) <->
       (exists img v, In img yc /\ EE.sample "NDVI" img p = Some v /\ v == -9999)) /\
      ((exists m, EE.minList (ndviAt yc p) = Some m /\ m == -9999) ->
       EE.sample "NDVI_slope_per_year" sl p = None).
Proof.
  intros Hc. split.
  - intros y Hy. destruct (yearlyImage_spec y [] Hy) as (r & Himg & Hr).
    eexists; split; [exact Himg|]. intros p. unfold EE.sample; cbn.
    unfold EE.clipRaster. now rewrite Hr.
  - destruct (yearCollection_total Hc) as (yc & Hyc & Ha).
    destruct (slope_spec yc Hyc) as (f & s0 & a & sl & _ & _ & _ & Hsl & _).
    exists yc, sl. split; [assumption|]. split; [assumption|].
    split; [now apply yearCollection_length|]. intros p. split.
    + now apply nodata_min_iff.
    + now apply slope_masked_at_nodata.
Qed.


(** C3.  The collection of year [y] is obtained from the catalog
    collection of the sensor by keeping the images acquired from the
    first of January of [y] to the first of January of [y + 1]
    (excluded), then those whose footprint meets the region, then
    applying [maskS2SR] to every image kept, then [addNDVIBands] to
    every masked image, in the order of the catalog; it is the
    collection the yearly image is computed from.  For a calendar
    date the date filter keeps exactly the dates of year [y]. *)
Theorem collectionForYear_pipeline (y : Z) :
  sensor = S2 /\
  (forall col,
      collectionForYear y = OK col <->
      exists masked,
        Forall2 (fun img m => maskS2SR img = OK m)
                (filter overRegion (filter (inYear y) (catalog "COPERNICUS/S2_SR")))
                masked /\
        Forall2 (fun m out => addNDVIBands m = OK out) masked col) /\
  (forall img t,
      EE.time_start img = Some t ->
      (1 <= EE.month t)%Z -> (1 <= EE.day t)%Z -> (0 <= EE.millis t)%Z ->
      (inYear y img = true <-> EE.year t = y)) /\
  (forall img, yearlyImage y = OK img -> exists col, collectionForYear y = OK col).
Proof.
  split; [reflexivity|]. split; [apply collectionForYear_iff|].
  split; [apply inYear_iff|].
  intros img H. destruct (yearlyImage_inv y img H) as (col & _ & Hc & _). eauto.
Qed.

(** C4.  The region is the rectangle [88.35, 23.05, 88.55, 23.35].
    The collection of a year is made of exactly the scenes of the
    year whose footprint meets this rectangle (all of them, and no
    other); every yearly image has the rectangle as footprint and is
    masked outside it; the regional mean of a yearly image is the mean
    over the sample points of this rectangle, at the scale the
    platform uses for it (the study scale when the rectangle is
    within [maxPixels]); each of the two area statistics is the sum,
    over the sample points of this rectangle at that scale, of the
    product of the pixel area by the sign test of the slope. *)
Theorem region_is_used_throughout :
  region = EE.Rectangle 88.35 23.05 88.55 23.35 /\
  (forall y col,
      collectionForYear y = OK col <->
      exists masked,
        Forall2 (fun img m => maskS2SR img = OK m)
                (filter (fun img => match EE.footprint img with
                                    | Some f => EE.intersects f
                                                  (EE.Rectangle 88.35 23.05 88.55 23.35)
                                    | None => true
                                    end)
                        (filter (inYear y) (catalog "COPERNICUS/S2_SR")))
                masked /\
        Forall2 (fun m out => addNDVIBands m = OK out) masked col) /\
  (forall y col img,
      collectionForYear y = OK col -> In img col ->
      match EE.footprint img with
      | Some f => EE.intersects f (EE.Rectangle 88.35 23.05 88.55 23.35) = true
      | None => True
      end) /\
  (forall y img,
      yearlyImage y = OK img ->
      EE.footprint img = Some (EE.Rectangle 88.35 23.05 88.55 23.35) /\
      forall p, EE.contains (EE.Rectangle 88.35 23.05 88.55 23.35) p = false ->
                EE.sample "NDVI" img p = None) /\
  (forall y img f,
      yearlyImage y = OK img -> meanFeature img = OK f ->
      EE.dictGet "meanNDVI" (EE.featureProperties f) =
      EE.meanList (flat_map (fun p => EE.valid (EE.sample "NDVI" img p))
                            (grid (EE.Rectangle 88.35 23.05 88.55 23.35) scaleUsed))) /\
  (forall d,
      areaPosTrend = OK d ->
      exists sl m,
        slope = OK sl /\ EE.multiply (EE.gt 0 sl) pixelArea = OK m /\
        d = EE.reducePixels EE.Reducer.sum
                            (grid (EE.Rectangle 88.35 23.05 88.55 23.35) scaleUsed) m) /\
  (forall d,
      areaNegTrend = OK d ->
      exists sl m,
        slope = OK sl /\ EE.multiply (EE.lt 0 sl) pixelArea = OK m /\
        d = EE.reducePixels EE.Reducer.sum
                            (grid (EE.Rectangle 88.35 23.05 88.55 23.35) scaleUsed) m) /\
  ((Z.of_nat (List.length (grid (EE.Rectangle 88.35 23.05 88.55 23.35) studyScale))
    <= maxPixels)%Z -> scaleUsed = studyScale).
Proof.
  split; [reflexivity|]. split; [|split; [|split; [|split; [|split; [|split]]]]].
  - intros y col. exact (collectionForYear_iff y col).
  - intros y col img Hc Hin. pose proof (collectionForYear_overRegion y col img Hc Hin) as H.
    unfold overRegion in H. destruct (EE.footprint img); auto.
  - intros y img H. destruct (yearlyImage_inv y img H) as (col & r & _ & -> & _).
    split; [reflexivity|]. intros p Hp. unfold EE.sample; cbn [EE.bands EE.lookup].
    cbn. unfold EE.clipRaster. change (EE.contains region p) with
      (EE.contains (EE.Rectangle 88.35 23.05 88.55 23.35) p). now rewrite Hp.
  - intros y img f Hy. destruct (yearlyImage_inv y img Hy) as (col & r & _ & -> & _).
    unfold meanFeature.
    cbn [EE.select EE.bands EE.lookup String.eqb Ascii.eqb Bool.eqb bind].
    rewrite reduceRegion_scaleUsed. cbn [bind]. intros H. injection H as <-. reflexivity.
  - intros d H. unfold areaPosTrend in H. apply bind_OK in H. destruct H as (m & Hm & Hr).
    rewrite reduceRegion_scaleUsed in Hr. injection Hr as <-.
    destruct slope as [sl|e]; [|discriminate]. exists sl, m. auto.
  - intros d H. unfold areaNegTrend in H. apply bind_OK in H. destruct H as (m & Hm & Hr).
    rewrite reduceRegion_scaleUsed in Hr. injection Hr as <-.
    destruct slope as [sl|e]; [|discriminate]. exists sl, m. auto.
  - intros H. unfold scaleUsed. apply Z.leb_le in H. now rewrite H.
Qed.

(** C5.  When the region holds no more pixels than [maxPixels] at the
    study scale, the script prints one feature for each year of the
    study, in order, holding that year and the mean of the NDVI band
    of the composite of that year over the pixels of the region at
    the study scale: the number whose product by the count of the
    unmasked values is their sum, and no value when there is none.
    The chart it prints has one row for each of these features, with
    the year as abscissa and the mean NDVI as the only series. *)
Theorem mean_ndvi_per_year_is_reported (yc : EE.ImageCollection) :
  yearCollection = OK yc ->
  withinMaxPixels ->
  exists fc c,
    meanPerYearFC = OK fc /\ chart = OK c /\
    In ("Mean NDVI per year (FeatureCollection):", OK (PFeatures fc)) console /\
    In ("", OK (PChart c)) console /\
    List.length fc = List.length years /\
    fc = map (fun yi => EE.mkFeature None [("year", Some (inject_Z (fst yi)));
                                           ("meanNDVI", regionalMean (snd yi))])
             (combine years yc) /\
    EE.series c = ["meanNDVI"] /\
    EE.rows c = map (fun f => (EE.dictGet "year" (EE.featureProperties f),
                               [EE.dictGet "meanNDVI" (EE.featureProperties f)])) fc /\
    EE.rows c = map (fun yi => (Some (inject_Z (fst yi)), [regionalMean (snd yi)]))
                    (combine years yc) /\
    (forall y img,
        In (y, img) (combine years yc) ->
        exists f,
          In f fc /\
          EE.dictGet "year" (EE.featureProperties f) = Some (inject_Z y) /\
          isMeanOf (EE.dictGet "meanNDVI" (EE.featureProperties f)) (regionValues img)).
Proof.
  intros Hyc Hw. pose proof (meanPerYearFC_spec yc Hyc Hw) as Hfc.
  eexists; eexists. split; [exact Hfc|].
  split; [unfold chart; rewrite Hfc; reflexivity|].
  split; [unfold console; rewrite Hfc; cbn [fmap bind]; simpl; auto|].
  split; [unfold console, chart; rewrite Hfc; cbn [fmap bind]; simpl; auto 6|].
  split.
  { rewrite length_map, length_combine.
    pose proof (yearCollection_length yc Hyc) as Hl. rewrite Hl. reflexivity. }
  split; [reflexivity|]. split; [reflexivity|]. split; [reflexivity|].
  split; [cbn [EE.rows EE.setTitle EE.byFeature]; rewrite map_map; reflexivity|].
  intros y img Hin.
  exists (EE.mkFeature None [("year", Some (inject_Z y)); ("meanNDVI", regionalMean img)]).
  split; [|split].
  - apply in_map_iff. exists (y, img). split; [reflexivity | assumption].
  - reflexivity.
  - exact (meanList_isMean (regionValues img)).
Qed.

Lemma positive_iff (s : Q) : positive s = true <-> 0 < s.
Proof.
  unfold positive. rewrite negb_true_iff. split.
  - intros H. apply Qnot_le_lt. intros Hle. apply Qle_bool_iff in Hle. congruence.
  - intros H. destruct (Qle_bool s 0) eqn:E; [|reflexivity].
    apply Qle_bool_iff in E. lra.
Qed.

Lemma negative_iff (s : Q) : negative s = true <-> s < 0.
Proof.
  unfold negative. rewrite negb_true_iff. split.
  - intros H. apply Qnot_le_lt. intros Hle. apply Qle_bool_iff in Hle. congruence.
  - intros H. destruct (Qle_bool 0 s) eqn:E; [|reflexivity].
    apply Qle_bool_iff in E. lra.
Qed.

(** C6.  When the region holds no more pixels than [maxPixels] at the
    study scale, the two area statistics the script prints are, for
    the band of the slope, the sum of the pixel areas over the pixels
    of the region at the study scale whose slope has a value strictly
    above 0, and the same sum for a value strictly below 0. *)
Theorem area_statistics_are_signed_sums (yc : EE.ImageCollection) :
  yearCollection = OK yc ->
  withinMaxPixels ->
  exists sl pos neg,
    slope = OK sl /\
    areaPosTrend = OK [("NDVI_slope_per_year", Some pos)] /\
    areaNegTrend = OK [("NDVI_slope_per_year", Some neg)] /\
    In ("Area pos trend (m^2):", OK (PDictionary [("NDVI_slope_per_year", Some pos)]))
       console /\
    In ("Area neg trend (m^2):", OK (PDictionary [("NDVI_slope_per_year", Some neg)]))
       console /\
    pos == areaWhere positive sl /\
    neg == areaWhere negative sl /\
    (forall s, positive s = true <-> 0 < s) /\
    (forall s, negative s = true <-> s < 0).
Proof.
  intros Hyc Hw.
  destruct (slope_spec yc Hyc) as (f & s0 & a & sl & _ & _ & _ & Hsl & _ & _ & Hn & _).
  destruct (area_spec positive sl Hn Hw) as (pos & Hpos & Epos).
  destruct (area_spec negative sl Hn Hw) as (neg & Hneg & Eneg).
  assert (Hp : areaPosTrend = OK [("NDVI_slope_per_year", Some pos)]).
  { unfold areaPosTrend. rewrite Hsl. exact Hpos. }
  assert (Hg : areaNegTrend = OK [("NDVI_slope_per_year", Some neg)]).
  { unfold areaNegTrend. rewrite Hsl. exact Hneg. }
  exists sl, pos, neg. repeat (split; [assumption|]).
  split; [unfold console; rewrite Hp; simpl; auto 8|].
  split; [unfold console; rewrite Hg; simpl; auto 8|].
  split; [assumption|]. split; [assumption|].
  split; [exact positive_iff | exact negative_iff].
Qed.


(* ------------------------------------------------------------------ *)
(** ** Further properties of the script *)

(** *** The masks *)

Lemma keepS2_ext (img out : EE.Image) (p : EE.Point) :
  EE.bandNames out = EE.bandNames img ->
  (forall b, EE.sample b out p = EE.sample b img p) ->
  keepS2 out p = keepS2 img p.
Proof.
  intros Hn Hs. unfold keepS2. rewrite !sclVote_sample, !qaVote_sample.
  unfold hasBand. rewrite Hn, !Hs. reflexivity.
Qed.

(** X1.  [maskS2SR] only removes pixels: a value of the result is the
    value the input has at the same band and point.  The band names,
    the properties, the footprint and the acquisition time are those
    of the input. *)
Theorem maskS2SR_only_removes (image : EE.Image) :
  exists out,
    maskS2SR image = OK out /\
    EE.bandNames out = EE.bandNames image /\
    EE.properties out = EE.properties image /\
    EE.footprint out = EE.footprint image /\
    EE.time_start out = EE.time_start image /\
    forall b p v, EE.sample b out p = Some v -> EE.sample b image p = Some v.
Proof.
  destruct (maskS2SR_spec image) as (out & Ho & Hn & Hp & Hf & Ht & Hs).
  exists out. repeat (split; [assumption|]).
  intros b p v. rewrite Hs. destruct (keepS2 image p); [auto | discriminate].
Qed.

(** X2.  Masking twice is masking once: [maskS2SR] applied to its own
    result changes no pixel. *)
Theorem maskS2SR_idempotent (image : EE.Image) :
  exists out out2,
    maskS2SR image = OK out /\ maskS2SR out = OK out2 /\
    forall b p, EE.sample b out2 p = EE.sample b out p.
Proof.
  destruct (maskS2SR_spec image) as (out & Ho & Hn & _ & _ & _ & Hs).
  destruct (maskS2SR_spec out) as (out2 & Ho2 & _ & _ & _ & _ & Hs2).
  exists out, out2. split; [assumption|]. split; [assumption|].
  intros b p. rewrite Hs2. destruct (keepS2 image p) eqn:Hk.
  - rewrite (keepS2_ext image out p Hn), Hk; [reflexivity|].
    intros b'. now rewrite Hs, Hk.
  - rewrite Hs, Hk. destruct (keepS2 out p); reflexivity.
Qed.

(** X3.  On an image without an [SCL] band the quality test never
    masks a pixel: with [QA60] present every pixel that has a [QA60]
    value is kept, whatever the value; with [QA60] missing, every
    pixel that has an [MSK_CLDPRB] value is kept, whatever the
    value. *)
Theorem quality_test_is_idle_without_SCL (image : EE.Image) :
  hasBand "SCL" image = false ->
  exists out,
    maskS2SR image = OK out /\
    (hasBand "QA60" image = true ->
     forall p q, EE.sample "QA60" image p = Some q ->
                 forall b, EE.sample b out p = EE.sample b image p) /\
    (hasBand "QA60" image = false ->
     forall p c, EE.sample "MSK_CLDPRB" image p = Some c ->
                 forall b, EE.sample b out p = EE.sample b image p).
Proof.
  intros Hscl. destruct (maskS2SR_spec image) as (out & Ho & _ & _ & _ & _ & Hs).
  exists out. split; [assumption|]. split.
  - intros Hqa p q Hq b. rewrite Hs. unfold keepS2.
    rewrite sclVote_sample, qaVote_sample, Hscl, Hqa, Hq. reflexivity.
  - intros Hqa p c Hc b. rewrite Hs. unfold keepS2.
    rewrite sclVote_sample, qaVote_sample, Hscl, Hqa.
    assert (Hm : hasBand "MSK_CLDPRB" image = true).
    { rewrite hasBand_lookup. unfold EE.sample in Hc.
      destruct (EE.lookup "MSK_CLDPRB" (EE.bands image)); [reflexivity | discriminate]. }
    rewrite Hm, Hc. reflexivity.
Qed.

Lemma maskL8SR_bandNames (image out : EE.Image) :
  maskL8SR image = OK out -> EE.bandNames out = EE.bandNames image.
Proof.
  unfold maskL8SR, EE.select.
  destruct (EE.lookup "QA_PIXEL" (EE.bands image)) as [qa|]; [|discriminate].
  cbn. intros H; injection H as <-. unfold EE.bandNames; cbn [EE.bands EE.withBands].
  rewrite map_map. reflexivity.
Qed.

(** X4.  On an image that has a [QA_PIXEL] band, [maskL8SR] keeps the
    band names, only removes pixels, and applied to its own result
    changes no pixel. *)
Theorem maskL8SR_only_removes (image : EE.Image) :
  hasBand "QA_PIXEL" image = true ->
  exists out out2,
    maskL8SR image = OK out /\ maskL8SR out = OK out2 /\
    EE.bandNames out = EE.bandNames image /\
    (forall b p v, EE.sample b out p = Some v -> EE.sample b image p = Some v) /\
    (forall b p, EE.sample b out2 p = EE.sample b out p).
Proof.
  intros Hqa. pose proof (maskL8SR_spec image) as Hs.
  rewrite hasBand_lookup in Hqa.
  destruct (EE.lookup "QA_PIXEL" (EE.bands image)) as [qa|] eqn:Hl; [|discriminate].
  destruct Hs as (out & Ho & Hs).
  pose proof (maskL8SR_bandNames image out Ho) as Hn.
  pose proof (maskL8SR_spec out) as Hs2.
  assert (Hqa' : hasBand "QA_PIXEL" out = true).
  { unfold hasBand. rewrite Hn. fold (hasBand "QA_PIXEL" image).
    rewrite hasBand_lookup, Hl. reflexivity. }
  rewrite hasBand_lookup in Hqa'.
  destruct (EE.lookup "QA_PIXEL" (EE.bands out)) as [qa'|] eqn:Hl'; [|discriminate].
  destruct Hs2 as (out2 & Ho2 & Hs2).
  assert (Hq : forall p, qa' p = match qa p with
                                 | Some v => if keepL8 v then Some v else None
                                 | None => None
                                 end).
  { intros p. pose proof (Hs "QA_PIXEL" p) as H. unfold EE.sample in H.
    rewrite Hl, Hl' in H. rewrite H. destruct (qa p) as [v|]; reflexivity. }
  exists out, out2. repeat (split; [assumption|]). split.
  - intros b p v. rewrite Hs. destruct (qa p) as [w|]; [|discriminate].
    destruct (keepL8 w); [auto | discriminate].
  - intros b p. rewrite Hs2, Hq, Hs. destruct (qa p) as [w|]; [|reflexivity].
    destruct (keepL8 w) eqn:Hk; [rewrite Hk|]; reflexivity.
Qed.


(** *** The NDVI band *)




Lemma addNDVIBands_sample (m out : EE.Image) :
  wellFormedS2 m = true ->
  addNDVIBands m = OK out ->
  EE.bandNames out = (EE.bandNames m ++ ["NDVI"])%list /\
  forall b p, EE.sample b out p =
              if String.eqb b "NDVI" then ndviOf m p else EE.sample b m p.
Proof.
  unfold wellFormedS2. rewrite !hasBand_lookup. intros Hw Ho.
  pose proof (addNDVIBands_spec m) as Hs. unfold ndviOf, EE.sample.
  destruct (EE.lookup "B8" (EE.bands m)) as [r8|]; [|discriminate].
  destruct (EE.lookup "B4" (EE.bands m)) as [r4|]; [|discriminate].
  destruct (EE.lookup "NDVI" (EE.bands m)) as [r|] eqn:Hn; [discriminate|].
  rewrite Hs in Ho. injection Ho as <-. cbn [EE.bands EE.withBands].
  assert (Hc : EE.containsName (map fst (EE.bands m)) "NDVI" = false)
    by (rewrite containsName_lookup, Hn; reflexivity).
  split.
  - unfold EE.bandNames, EE.addBand; cbn [EE.bands EE.withBands fst snd].
    rewrite Hc, map_app. reflexivity.
  - intros b p. unfold EE.addBand; cbn [fst snd]. rewrite Hc, lookup_app.
    destruct (String.eqb_spec b "NDVI") as [->|Hb].
    + rewrite Hn. cbn. reflexivity.
    + destruct (EE.lookup b (EE.bands m)); [reflexivity|].
      cbn [EE.lookup]. apply String.eqb_neq in Hb. rewrite Hb. reflexivity.
Qed.

Lemma addNDVIBands_wellFormed_ok (m : EE.Image) :
  wellFormedS2 m = true -> exists out, addNDVIBands m = OK out.
Proof.
  intros Hw. destruct (addNDVIBands_wellFormed m Hw) as (o & Ho & _). eauto.
Qed.

Lemma nd_value (a b v : Q) :
  EE.nd a b = Some v -> 0 <= a /\ 0 <= b /\ v = (a - b) / (a + b).
Proof.
  unfold EE.nd. destruct (Qle_bool 0 a) eqn:Ha; [|discriminate].
  destruct (Qle_bool 0 b) eqn:Hb; [|discriminate]. cbn [andb].
  intros H; injection H as <-.
  apply Qle_bool_iff in Ha. apply Qle_bool_iff in Hb. auto.
Qed.

(** X6.  On a scene with [B8] and [B4] and no band called [NDVI], the
    band [NDVI] that [addNDVIBands] adds has a value only where both
    bands have a value that is not negative; the value is
    (B8 - B4) / (B8 + B4) and lies between -1 and 1. *)
Theorem ndvi_band_value (img : EE.Image) :
  wellFormedS2 img = true ->
  exists out,
    addNDVIBands img = OK out /\
    forall p v,
      EE.sample "NDVI" out p = Some v ->
      exists a b,
        EE.sample "B8" img p = Some a /\ EE.sample "B4" img p = Some b /\
        0 <= a /\ 0 <= b /\ v = (a - b) / (a + b) /\ -1 <= v /\ v <= 1.
Proof.
  intros Hw. destruct (addNDVIBands_wellFormed_ok img Hw) as (out & Ho).
  destruct (addNDVIBands_sample img out Hw Ho) as (_ & Hs).
  exists out. split; [assumption|]. intros p v. rewrite Hs. cbn. unfold ndviOf.
  destruct (EE.sample "B8" img p) as [a|]; [|discriminate].
  destruct (EE.sample "B4" img p) as [b|]; [|discriminate].
  intros H. exists a, b. destruct (nd_value a b v H) as (Ha & Hb & Hv).
  destruct (nd_bounds a b v H) as (Hlo & Hhi). auto 10.
Qed.

Lemma ndviOf_masked (img m : EE.Image) (p : EE.Point) :
  (forall b, EE.sample b m p = if keepS2 img p then EE.sample b img p else None) ->
  ndviOf m p = if keepS2 img p then ndviOf img p else None.
Proof.
  intros Hs. unfold ndviOf. rewrite !Hs. destruct (keepS2 img p); reflexivity.
Qed.

(** X7.  In the order the script uses (mask, then NDVI), a pixel the
    mask drops has no NDVI value, and a pixel it keeps has the NDVI of
    the unmasked scene. *)
Theorem masked_pixels_have_no_ndvi (img : EE.Image) :
  wellFormedS2 img = true ->
  exists m out,
    maskS2SR img = OK m /\ addNDVIBands m = OK out /\
    forall p, EE.sample "NDVI" out p = if keepS2 img p then ndviOf img p else None.
Proof.
  intros Hw. destruct (maskS2SR_spec img) as (m & Hm & Hn & _ & _ & _ & Hs).
  assert (Hwm : wellFormedS2 m = true).
  { unfold wellFormedS2, hasBand in *. now rewrite Hn. }
  destruct (addNDVIBands_wellFormed_ok m Hwm) as (out & Ho).
  destruct (addNDVIBands_sample m out Hwm Ho) as (_ & Hso).
  exists m, out. split; [assumption|]. split; [assumption|].
  intros p. rewrite Hso. cbn. apply ndviOf_masked. intros b. apply Hs.
Qed.

Lemma hasBand_app_NDVI (l : list string) (b : string) :
  String.eqb b "NDVI" = false ->
  EE.containsName (l ++ ["NDVI"])%list b = EE.containsName l b.
Proof.
  intros Hb. unfold EE.containsName. rewrite existsb_app. cbn [existsb].
  rewrite Hb. now rewrite !orb_false_r.
Qed.

(** X8.  The mask and the NDVI band commute: on a scene with [B8] and
    [B4] and no band called [NDVI], masking and then adding NDVI
    gives the bands and pixels that adding NDVI and then masking
    gives. *)
Theorem mask_and_ndvi_commute (img : EE.Image) :
  wellFormedS2 img = true ->
  exists m out n out',
    maskS2SR img = OK m /\ addNDVIBands m = OK out /\
    addNDVIBands img = OK n /\ maskS2SR n = OK out' /\
    EE.bandNames out' = EE.bandNames out /\
    forall b p, EE.sample b out' p = EE.sample b out p.
Proof.
  intros Hw. destruct (maskS2SR_spec img) as (m & Hm & Hnm & _ & _ & _ & Hsm).
  assert (Hwm : wellFormedS2 m = true).
  { unfold wellFormedS2, hasBand in *. now rewrite Hnm. }
  destruct (addNDVIBands_wellFormed_ok m Hwm) as (out & Ho).
  destruct (addNDVIBands_sample m out Hwm Ho) as (Hno & Hso).
  destruct (addNDVIBands_wellFormed_ok img Hw) as (n & Hn).
  destruct (addNDVIBands_sample img n Hw Hn) as (Hnn & Hsn).
  destruct (maskS2SR_spec n) as (out' & Ho' & Hno' & _ & _ & _ & Hso').
  exists m, out, n, out'. repeat (split; [assumption|]).
  split; [now rewrite Hno', Hnn, Hno, Hnm|].
  assert (Hk : forall p, keepS2 n p = keepS2 img p).
  { intros p. unfold keepS2. rewrite !sclVote_sample, !qaVote_sample.
    unfold hasBand. rewrite Hnn, !hasBand_app_NDVI by reflexivity.
    rewrite !Hsn. reflexivity. }
  intros b p. rewrite Hso', Hk, Hsn, Hso.
  destruct (String.eqb b "NDVI").
  - symmetry. apply ndviOf_masked. intros b'. apply Hsm.
  - now rewrite Hsm.
Qed.


(** *** The collection of a year *)

Lemma inDateRange_year (y y' : Z) (img : EE.Image) :
  EE.inDateRange (EE.fromYMD y 1 1) (EE.advanceYear 1 (EE.fromYMD y 1 1)) img = true ->
  EE.inDateRange (EE.fromYMD y' 1 1) (EE.advanceYear 1 (EE.fromYMD y' 1 1)) img = true ->
  y = y'.
Proof.
  unfold EE.inDateRange. destruct (EE.time_start img) as [t|]; [|discriminate].
  unfold EE.dateLe, EE.dateLt, EE.dateKey, EE.fromYMD, EE.advanceYear.
  cbn [EE.lexLt EE.year EE.month EE.day EE.millis].
  generalize ((EE.month t <? 1)%Z
              || (EE.month t =? 1)%Z
                 && ((EE.day t <? 1)%Z
                     || (EE.day t =? 1)%Z
                        && ((EE.millis t <? 0)%Z || (EE.millis t =? 0)%Z && false))).
  intros r.
  repeat match goal with
         | |- context [(?a <? ?b)%Z] => destruct (Z.ltb_spec a b)
         | |- context [(?a =? ?b)%Z] => destruct (Z.eqb_spec a b)
         end;
    destruct r; cbn [negb andb orb]; intros; solve [lia | discriminate].
Qed.

Lemma addNDVIBands_time (m out : EE.Image) :
  addNDVIBands m = OK out -> EE.time_start out = EE.time_start m.
Proof.
  intros H. pose proof (addNDVIBands_spec m) as Hs.
  destruct (EE.lookup "B8" (EE.bands m)) as [r8|];
    [destruct (EE.lookup "B4" (EE.bands m)) as [r4|]|].
  - rewrite Hs in H. injection H as <-. reflexivity.
  - destruct Hs as [e He]. rewrite He in H. discriminate.
  - destruct Hs as [e He]. rewrite He in H. discriminate.
Qed.

(** An image of the collection of a year, with the catalog scene it
    was made from. *)
Lemma collectionForYear_origin (y : Z) (col : EE.ImageCollection) (img : EE.Image) :
  collectionForYear y = OK col -> In img col ->
  exists src m,
    In src (scenesOfYear y) /\ maskS2SR src = OK m /\ addNDVIBands m = OK img /\
    EE.time_start img = EE.time_start src /\ EE.footprint img = EE.footprint src.
Proof.
  intros H Hin. apply collectionForYear_inv in H. destruct H as (masked & H1 & H2).
  destruct (mapM_In _ _ _ _ H2 Hin) as (m & Hm & Hadd).
  destruct (mapM_In _ _ _ _ H1 Hm) as (src & Hsrc & Hmask).
  rewrite filters_of_year in Hsrc. exists src, m.
  destruct (maskS2SR_spec src) as (m' & Hm' & _ & _ & Hf & Ht & _).
  rewrite Hmask in Hm'. injection Hm' as <-.
  repeat (split; [assumption|]). split.
  - now rewrite (addNDVIBands_time m img Hadd).
  - now rewrite (addNDVIBands_footprint m img Hadd).
Qed.

(** X9.  No scene serves two years: images of the collections of two
    years that have the same acquisition time belong to the same
    year. *)
Theorem years_do_not_overlap (y y' : Z) (col col' : EE.ImageCollection)
        (img img' : EE.Image) :
  collectionForYear y = OK col -> collectionForYear y' = OK col' ->
  In img col -> In img' col' ->
  EE.time_start img = EE.time_start img' ->
  y = y'.
Proof.
  intros Hc Hc' Hi Hi' Ht.
  destruct (collectionForYear_origin y col img Hc Hi) as (s & _ & Hs & _ & _ & Hts & _).
  destruct (collectionForYear_origin y' col' img' Hc' Hi') as (s' & _ & Hs' & _ & _ & Hts' & _).
  unfold scenesOfYear in Hs, Hs'.
  apply filter_In in Hs. destruct Hs as [Hs _]. apply filter_In in Hs. destruct Hs as [_ Hy].
  apply filter_In in Hs'. destruct Hs' as [Hs' _]. apply filter_In in Hs'. destruct Hs' as [_ Hy'].
  apply (inDateRange_year y y' s); [exact Hy|].
  change (inYear y' s = true). unfold inYear in *.
  rewrite <- Hts, Ht, Hts'. exact Hy'.
Qed.

Lemma addNDVIBands_ok_iff (img : EE.Image) :
  (exists out, addNDVIBands img = OK out) <-> hasRedNir img = true.
Proof.
  pose proof (addNDVIBands_spec img) as Hs. unfold hasRedNir. rewrite !hasBand_lookup.
  destruct (EE.lookup "B8" (EE.bands img)) as [r8|];
    [destruct (EE.lookup "B4" (EE.bands img)) as [r4|]|]; cbn [andb].
  - split; [reflexivity | eauto].
  - destruct Hs as [e He]. split; [|discriminate].
    intros [out Ho]. rewrite He in Ho. discriminate.
  - destruct Hs as [e He]. split; [|discriminate].
    intros [out Ho]. rewrite He in Ho. discriminate.
Qed.

Lemma hasRedNir_masked (src m : EE.Image) :
  maskS2SR src = OK m -> hasRedNir m = hasRedNir src.
Proof.
  intros H. destruct (maskS2SR_spec src) as (m' & Hm' & Hn & _).
  rewrite H in Hm'. injection Hm' as <-. unfold hasRedNir, hasBand. now rewrite Hn.
Qed.

Lemma collectionForYear_ok_iff (y : Z) :
  (exists col, collectionForYear y = OK col) <->
  forallb hasRedNir (scenesOfYear y) = true.
Proof.
  split.
  - intros [col H]. apply forallb_forall. intros src Hsrc.
    apply collectionForYear_inv in H. destruct H as (masked & H1 & H2).
    rewrite filters_of_year in H1.
    destruct (mapM_In_l _ _ _ _ H1 Hsrc) as (m & Hm & Hmask).
    destruct (mapM_In_l _ _ _ _ H2 Hm) as (o & _ & Hadd).
    rewrite <- (hasRedNir_masked src m Hmask). apply addNDVIBands_ok_iff. eauto.
  - intros Hall. rewrite forallb_forall in Hall.
    destruct (mapM_post maskS2SR (fun m => hasRedNir m = true) (scenesOfYear y))
      as (ms & Hms & Hw).
    { intros src Hsrc. destruct (maskS2SR_spec src) as (m & Hm & _).
      exists m. split; [assumption|]. rewrite (hasRedNir_masked src m Hm). auto. }
    destruct (mapM_post addNDVIBands (fun _ => True) ms) as (col & Hcol & _).
    { intros m Hm. rewrite Forall_forall in Hw.
      destruct (proj2 (addNDVIBands_ok_iff m) (Hw m Hm)) as [o Ho]. eauto. }
    exists col. unfold collectionForYear, sensor. rewrite filters_of_year.
    fold (scenesOfYear y). rewrite Hms. exact Hcol.
Qed.

(** X10.  The collection of a year evaluates exactly when every scene
    that passes the two filters of the year has the bands [B8] and
    [B4]; it then holds one image for each of these scenes. *)
Theorem collectionForYear_succeeds_iff (y : Z) :
  ((exists col, collectionForYear y = OK col) <->
   forallb hasRedNir (scenesOfYear y) = true) /\
  (forall col, collectionForYear y = OK col ->
               List.length col = List.length (scenesOfYear y)).
Proof.
  split; [apply collectionForYear_ok_iff|].
  intros col H. apply collectionForYear_iff in H. destruct H as (masked & H1 & H2).
  apply Forall2_length in H1. apply Forall2_length in H2.
  unfold scenesOfYear. congruence.
Qed.

Lemma mapM_map {A B} (f : A -> result B) (g : A -> B) (l : list A) :
  (forall a, In a l -> f a = OK (g a)) -> mapM f l = OK (map g l).
Proof.
  induction l as [|a l IH]; intros H; simpl; [reflexivity|].
  rewrite (H a (or_introl Logic.eq_refl)), IH; [reflexivity|].
  intros; apply H; now right.
Qed.

(** X11.  With a well-formed catalog the counts the script prints are,
    year by year, the numbers of catalog scenes acquired in the year
    whose footprint meets the region: the mask and the NDVI band drop
    no image. *)
Theorem counts_are_scene_counts :
  catalogOK ->
  counts = OK (map (fun y => Z.of_nat (List.length (scenesOfYear y))) years).
Proof.
  intros Hc. unfold counts. apply mapM_map. intros y _.
  destruct (collectionForYear_total y Hc) as (col & Hcol & _).
  assert (Hl : List.length col = List.length (scenesOfYear y)).
  { pose proof Hcol as H. apply collectionForYear_iff in H.
    destruct H as (masked & H1 & H2).
    apply Forall2_length in H1. apply Forall2_length in H2.
    unfold scenesOfYear. congruence. }
  rewrite Hcol. cbn [fmap bind]. unfold EE.size. now rewrite Hl.
Qed.


(** *** The yearly collection *)

Lemma mapM_ok {A B} (f : A -> result B) (l : list A) :
  (forall a, In a l -> exists b, f a = OK b) -> exists l', mapM f l = OK l'.
Proof.
  intros H. destruct (mapM_post f (fun _ => True) l) as (l' & Hl & _); [|eauto].
  intros a Ha. destruct (H a Ha) as [b Hb]. eauto.
Qed.

(** X12.  A yearly image has exactly the bands [NDVI] and [t], in this
    order; band [t] is the year at every point, also outside the
    region where [NDVI] is masked; the property [year] is the year and
    is the only property; the image has no acquisition time. *)
Theorem yearlyImage_shape (y : Z) (img : EE.Image) :
  yearlyImage y = OK img ->
  EE.bandNames img = ["NDVI"; "t"] /\
  (forall p, EE.sample "t" img p = Some (inject_Z y)) /\
  EE.properties img = [("year", inject_Z y)] /\
  EE.get "year" img = Some (inject_Z y) /\
  EE.time_start img = None.
Proof.
  intros H. destruct (yearlyImage_inv y img H) as (col & r & _ & -> & _).
  repeat split; reflexivity.
Qed.

Lemma yearlyImage_ok_iff (y : Z) :
  (exists img, yearlyImage y = OK img) <-> forallb hasRedNir (scenesOfYear y) = true.
Proof.
  rewrite <- collectionForYear_ok_iff. split.
  - intros [img H]. destruct (yearlyImage_inv y img H) as (col & _ & Hc & _). eauto.
  - intros [col Hc]. destruct (yearlyImage_spec y col Hc) as (r & Hy & _). eauto.
Qed.

(** X13.  The yearly collection evaluates exactly when, in each of the
    years of the study, every scene that passes the filters of the
    year has the bands [B8] and [B4]: one scene without them in one
    year leaves the script without any yearly image. *)
Theorem yearCollection_succeeds_iff :
  (exists yc, yearCollection = OK yc) <->
  (forall y, In y years -> forallb hasRedNir (scenesOfYear y) = true).
Proof.
  split.
  - intros [yc H] y Hy. unfold yearCollection, yearlyList, fmap in H.
    apply bind_OK in H. destruct H as (l & Hl & _).
    destruct (mapM_In_l _ _ _ _ Hl Hy) as (img & _ & Himg).
    apply yearlyImage_ok_iff. eauto.
  - intros Hall. destruct (mapM_post yearlyImage (fun _ => True) years) as (l & Hl & _).
    { intros y Hy. destruct (proj2 (yearlyImage_ok_iff y) (Hall y Hy)) as [img Hi]. eauto. }
    exists l. unfold yearCollection, yearlyList. rewrite Hl. reflexivity.
Qed.

(** X14.  [lastYear], the image the map shows, is the yearly image of
    [yearEnd]: the filter on the property [year] finds it, and it is
    the last image of the yearly collection. *)
Theorem lastYear_is_yearEnd (yc : EE.ImageCollection) :
  yearCollection = OK yc ->
  exists img,
    yearlyImage yearEnd = OK img /\
    lastYear = OK (Some img) /\
    last yc img = img /\ In img yc.
Proof.
  intros H. pose proof (yearCollection_Forall2 yc H) as HF.
  unfold lastYear. rewrite H. cbn [fmap bind].
  change years with [2018; 2019; 2020; 2021; 2022; 2023]%Z in HF.
  repeat match goal with
         | HF : Forall2 _ (_ :: _) _ |- _ =>
             let Hy := fresh "Hy" in
             inversion HF as [|? ? ? ? Hy HF']; subst; clear HF; rename HF' into HF
         | HF : Forall2 _ [] _ |- _ => inversion HF; subst; clear HF
         end.
  match goal with
  | H5 : yearlyImage 2023 = OK ?i |- _ => exists i
  end.
  split; [assumption|].
  repeat match goal with
         | Hy : yearlyImage _ = OK _ |- _ =>
             let col := fresh "col" in
             let r := fresh "r" in
             destruct (yearlyImage_inv _ _ Hy) as (col & r & _ & -> & _); clear Hy
         end.
  split; [reflexivity|]. split; [reflexivity|]. simpl. auto 10.
Qed.

Lemma reduceRegion_bestEffort (r : EE.Reducer.t) (g : EE.Geometry) (s : Q) (mp : Z)
      (img : EE.Image) :
  exists d, reduceRegion r g s true mp img = OK d.
Proof.
  unfold reduceRegion.
  destruct (Z.of_nat (List.length (grid g s)) <=? mp)%Z; eauto.
Qed.

Lemma meanFeature_total (y : Z) (img : EE.Image) :
  yearlyImage y = OK img -> exists f, meanFeature img = OK f.
Proof.
  intros Hy. destruct (yearlyImage_inv y img Hy) as (col & r & _ & -> & _).
  unfold meanFeature. cbn [EE.select EE.bands EE.lookup String.eqb Ascii.eqb Bool.eqb bind].
  destruct (reduceRegion_bestEffort EE.Reducer.mean region studyScale maxPixels
              (EE.withBands
                 (EE.mkImage [("NDVI", EE.clipRaster region r);
                              ("t", fun _ => Some (inject_Z y))]
                             [("year", inject_Z y)] (Some region) None)
                 [("NDVI", EE.clipRaster region r)])) as (d & ->).
  eexists. reflexivity.
Qed.

Lemma area_total (test : Q -> bool) (sl : EE.Image) :
  EE.bandNames sl = ["NDVI_slope_per_year"] ->
  exists d,
    bind (bind2 EE.multiply (OK (EE.mapBands (fun v => EE.ofBool (test v)) sl))
                (OK pixelArea))
         (reduceRegion EE.Reducer.sum region studyScale true maxPixels) = OK d.
Proof.
  intros Hn. destruct (single_band sl _ Hn) as (rs & Hb).
  unfold EE.multiply, EE.binop, EE.mapBands, pixelArea. cbn [bind2 bind EE.bands EE.withBands].
  rewrite Hb. cbn [map fst snd bind]. apply reduceRegion_bestEffort.
Qed.

(** X15.  Once the yearly collection evaluates, nothing the script
    prints is an error, however many pixels the region holds: the
    trend, the means, the chart and the two areas all evaluate.  With
    a well-formed catalog the yearly collection and the counts
    evaluate too. *)
Theorem script_prints_no_error :
  ((exists yc, yearCollection = OK yc) ->
   forall label v, In (label, v) console ->
                   label <> "Image counts per year:" -> exists x, v = OK x) /\
  (catalogOK -> forall label v, In (label, v) console -> exists x, v = OK x).
Proof.
  assert (Hmain : forall yc, yearCollection = OK yc ->
            (exists a, meanPerYearFC = OK a) /\ (exists a, chart = OK a) /\
            (exists a, areaPosTrend = OK a) /\ (exists a, areaNegTrend = OK a)).
  { intros yc Hyc.
    destruct (slope_spec yc Hyc) as (f & s0 & a & sl & _ & _ & _ & Hsl & _ & _ & Hn & _).
    assert (Hfc : exists fc, meanPerYearFC = OK fc).
    { unfold meanPerYearFC. rewrite Hyc. cbn [bind]. apply mapM_ok.
      intros img Hin. pose proof (yearCollection_Forall2 yc Hyc) as HF.
      assert (exists y, yearlyImage y = OK img) as [y Hy].
      { clear -HF Hin. induction HF as [|y i ys imgs Hy _ IH]; [contradiction|].
        destruct Hin as [<-|Hin]; eauto. }
      exact (meanFeature_total y img Hy). }
    split; [destruct Hfc as [fc Hfc]; eauto|].
    split; [destruct Hfc as [fc Hfc]; unfold chart; rewrite Hfc; eexists; reflexivity|].
    split.
    - unfold areaPosTrend. rewrite Hsl. apply (area_total positive sl Hn).
    - unfold areaNegTrend. rewrite Hsl. apply (area_total negative sl Hn). }
  assert (Hrest : forall yc, yearCollection = OK yc ->
            forall label v, In (label, v) console ->
                            label <> "Image counts per year:" -> exists x, v = OK x).
  { intros yc Hyc label v Hin Hl.
    destruct (Hmain yc Hyc) as ([fc Hfc] & [c Hc] & [ap Hap] & [an Han]).
    unfold console in Hin. rewrite Hyc, Hfc, Hc, Hap, Han in Hin. cbn [fmap bind] in Hin.
    simpl in Hin.
    repeat destruct Hin as [Hin|Hin]; try contradiction;
      injection Hin as <- <-; try (eexists; reflexivity).
    contradiction Hl; reflexivity. }
  split.
  - intros [yc Hyc]. exact (Hrest yc Hyc).
  - intros Hc label v Hin.
    destruct (yearCollection_total Hc) as (yc & Hyc & _).
    destruct (String.eqb_spec label "Image counts per year:") as [->|Hne];
      [|exact (Hrest yc Hyc label v Hin Hne)].
    assert (Hcounts : exists l, counts = OK l).
    { unfold counts. apply mapM_ok. intros y _.
      destruct (collectionForYear_total y Hc) as (col & Hcol & _).
      rewrite Hcol. eexists; reflexivity. }
    destruct Hcounts as [l Hl].
    destruct (Hmain yc Hyc) as ([fc Hfc] & [c Hc'] & [ap Hap] & [an Han]).
    unfold console in Hin. rewrite Hyc, Hfc, Hc', Hap, Han, Hl in Hin.
    cbn [fmap bind] in Hin. simpl in Hin.
    repeat destruct Hin as [Hin|Hin]; try contradiction;
      inversion Hin; subst; eexists; reflexivity.
Qed.


(** *** Values of the composites and of the trend *)

(** X16.  With a well-formed catalog, the composite of a year that has
    images takes its NDVI values between -1 and 1: a value of a real
    composite is never the nodata value. *)
Theorem composite_ndvi_range (y : Z) (col : EE.ImageCollection) :
  catalogOK ->
  collectionForYear y = OK col -> col <> [] ->
  exists img,
    yearlyImage y = OK img /\
    forall p v, EE.sample "NDVI" img p = Some v -> -1 <= v /\ v <= 1.
Proof.
  intros Hc Hcol Hne. destruct (collectionForYear_total y Hc) as (col' & Hcol' & Hb).
  rewrite Hcol in Hcol'. injection Hcol' as <-.
  destruct (yearlyImage_spec y col Hcol) as (r & Hy & Hr).
  eexists; split; [exact Hy|]. intros p v. unfold EE.sample; cbn. unfold EE.clipRaster.
  destruct (EE.contains region p); [|discriminate]. rewrite Hr.
  destruct col as [|i col']; [contradiction Hne; reflexivity|].
  intros H. apply (medianList_bounds (-1) 1) in H; [assumption|].
  apply ndviAt_Forall. eapply Forall_impl; [|exact Hb]. intros img Hi w Hw. eauto.
Qed.

(** X17.  The reported slope has a value at a point exactly when the
    fit has one there and the least NDVI value of the years at the
    point is not -9999; the value is the slope of the fit. *)
Theorem slope_reported_iff (yc : EE.ImageCollection) :
  yearCollection = OK yc ->
  exists f sl,
    fit = OK f /\ slope = OK sl /\
    forall p v,
      EE.sample "NDVI_slope_per_year" sl p = Some v <->
      EE.sample "scale" f p = Some v /\
      exists m, EE.minList (ndviAt yc p) = Some m /\ ~ m == -9999.
Proof.
  intros Hyc.
  destruct (slope_spec yc Hyc) as (f & s0 & a & sl & Hf & _ & _ & Hsl & _).
  exists f, sl. split; [assumption|]. split; [assumption|].
  intros p v. now apply (slope_value_iff yc f sl p v).
Qed.

Lemma ndviAt_outside (yc : EE.ImageCollection) (p : EE.Point) :
  yearCollection = OK yc -> EE.contains region p = false -> ndviAt yc p = [].
Proof.
  intros H Hp. apply yearCollection_Forall2 in H. unfold ndviAt.
  induction H as [|y img ys imgs Hy _ IH]; [reflexivity|].
  cbn [flat_map]. rewrite IH.
  destruct (yearlyImage_inv y img Hy) as (col & r & _ & -> & _).
  unfold EE.sample; cbn. unfold EE.clipRaster. rewrite Hp. reflexivity.
Qed.

Lemma empty_year_slope (y : Z) (yc : EE.ImageCollection) (sl : EE.Image) :
  Forall aboveNodata yc ->
  yearCollection = OK yc -> slope = OK sl ->
  In y years -> collectionForYear y = OK [] ->
  forall p, EE.sample "NDVI_slope_per_year" sl p = None.
Proof.
  intros Ha Hyc Hsl Hy Hcol p.
  destruct (EE.contains region p) eqn:Hp.
  - apply (slope_masked_at_nodata yc sl p Hyc Hsl). apply nodata_min_iff; [assumption|].
    destruct (yearlyImage_spec y [] Hcol) as (r & Himg & Hr).
    eexists; exists (-9999). split; [|split; [|reflexivity]].
    + unfold yearCollection, yearlyList, fmap in Hyc. apply bind_OK in Hyc.
      destruct Hyc as (l & Hl & Heq). injection Heq as <-.
      eapply mapM_In_result; [exact Hl | exact Hy | exact Himg].
    + unfold EE.sample; cbn. unfold EE.clipRaster. now rewrite Hp, Hr.
  - destruct (slope_spec yc Hyc)
      as (f & s0 & a & sl' & _ & _ & _ & Hsl' & _ & _ & _ & _ & _ & _ & Hmask).
    rewrite Hsl in Hsl'. injection Hsl' as <-.
    rewrite Hmask, (ndviAt_outside yc p Hyc Hp). cbn [EE.minList].
    destruct (EE.sample "NDVI_slope_per_year" s0 p); reflexivity.
Qed.

(** X18.  With a well-formed catalog, one year of the study without
    any image masks the whole trend: the reported slope has no value
    at any point. *)
Theorem empty_year_masks_the_trend (y : Z) :
  catalogOK ->
  In y years -> collectionForYear y = OK [] ->
  exists sl,
    slope = OK sl /\ forall p, EE.sample "NDVI_slope_per_year" sl p = None.
Proof.
  intros Hc Hy Hcol. destruct (yearCollection_total Hc) as (yc & Hyc & Ha).
  destruct (slope_spec yc Hyc) as (f & s0 & a & sl & _ & _ & _ & Hsl & _).
  exists sl. split; [assumption|]. exact (empty_year_slope y yc sl Ha Hyc Hsl Hy Hcol).
Qed.

Lemma areaWhere_masked (test : Q -> bool) (sl : EE.Image) :
  (forall p, EE.sample "NDVI_slope_per_year" sl p = None) ->
  areaWhere test sl = 0.
Proof.
  intros H. unfold areaWhere.
  induction (grid region studyScale) as [|p l IH]; [reflexivity|].
  cbn [filter]. rewrite H. exact IH.
Qed.

(** X19.  With a well-formed catalog and a region within [maxPixels],
    one year of the study without any image makes both printed areas
    zero. *)
Theorem empty_year_zeroes_the_areas (y : Z) :
  catalogOK -> withinMaxPixels ->
  In y years -> collectionForYear y = OK [] ->
  exists pos neg,
    areaPosTrend = OK [("NDVI_slope_per_year", Some pos)] /\
    areaNegTrend = OK [("NDVI_slope_per_year", Some neg)] /\
    pos == 0 /\ neg == 0.
Proof.
  intros Hc Hw Hy Hcol. destruct (yearCollection_total Hc) as (yc & Hyc & Ha).
  destruct (slope_spec yc Hyc) as (f & s0 & a & sl & _ & _ & _ & Hsl & _ & _ & Hn & _).
  pose proof (empty_year_slope y yc sl Ha Hyc Hsl Hy Hcol) as Hm.
  destruct (area_spec positive sl Hn Hw) as (pos & Hpos & Epos).
  destruct (area_spec negative sl Hn Hw) as (neg & Hneg & Eneg).
  exists pos, neg. split; [unfold areaPosTrend; rewrite Hsl; exact Hpos|].
  split; [unfold areaNegTrend; rewrite Hsl; exact Hneg|].
  rewrite Epos, Eneg, !areaWhere_masked by assumption. split; reflexivity.
Qed.

Lemma Qsum_bounds (lo hi : Q) (l : list Q) :
  Forall (fun v => lo <= v /\ v <= hi) l ->
  inject_Z (Z.of_nat (List.length l)) * lo <= EE.Qsum l /\
  EE.Qsum l <= inject_Z (Z.of_nat (List.length l)) * hi.
Proof.
  induction 1 as [|x l [Hlo Hhi] _ [IH1 IH2]].
  - change (0 * lo <= 0 /\ 0 <= 0 * hi). lra.
  - rewrite Qsum_cons. cbn [List.length]. rewrite count_succ. lra.
Qed.

Lemma meanList_bounds (lo hi : Q) (l : list Q) (m : Q) :
  Forall (fun v => lo <= v /\ v <= hi) l ->
  EE.meanList l = Some m -> lo <= m /\ m <= hi.
Proof.
  intros Hl. destruct (Qsum_bounds lo hi l Hl) as [H1 H2]. unfold EE.meanList.
  destruct l as [|x l]; [discriminate|]. intros H.
  apply (f_equal (fun o => match o with Some v => v | None => 0 end)) in H.
  cbv beta iota in H. subst m.
  set (n := inject_Z (Z.of_nat (List.length (x :: l)))) in *.
  assert (Hn : 0 < n).
  { subst n. cbn [List.length]. rewrite count_succ.
    assert (0 <= inject_Z (Z.of_nat (List.length l))).
    { change 0 with (inject_Z 0). rewrite <- Zle_Qle. apply Nat2Z.is_nonneg. }
    lra. }
  split; [apply Qle_shift_div_l | apply Qle_shift_div_r]; try assumption; lra.
Qed.

Lemma regionalMean_bounds (lo hi : Q) (img : EE.Image) (m : Q) :
  (forall p v, EE.sample "NDVI" img p = Some v -> lo <= v /\ v <= hi) ->
  regionalMean img = Some m -> lo <= m /\ m <= hi.
Proof.
  intros Hb. unfold regionalMean. apply meanList_bounds.
  induction (grid region studyScale) as [|p l IH]; [constructor|].
  cbn [flat_map]. apply Forall_app. split; [|exact IH].
  destruct (EE.sample "NDVI" img p) as [v|] eqn:E; cbn [EE.valid].
  - constructor; [exact (Hb p v E) | constructor].
  - constructor.
Qed.

(** X20.  When the region is within [maxPixels], the feature of a year
    without any image reports -9999 as its mean NDVI (and no value
    only if no pixel of the grid lies in the region): the chart plots
    the nodata value for such a year. *)
Theorem empty_year_mean_is_nodata (y : Z) :
  withinMaxPixels ->
  collectionForYear y = OK [] ->
  exists img f,
    yearlyImage y = OK img /\ meanFeature img = OK f /\
    EE.dictGet "year" (EE.featureProperties f) = Some (inject_Z y) /\
    (forall m, EE.dictGet "meanNDVI" (EE.featureProperties f) = Some m -> m == -9999) /\
    ((exists p, In p (grid region studyScale) /\ EE.contains region p = true) ->
     exists m, EE.dictGet "meanNDVI" (EE.featureProperties f) = Some m).
Proof.
  intros Hw Hcol. destruct (yearlyImage_spec y [] Hcol) as (r & Hy & Hr).
  eexists; eexists. split; [exact Hy|].
  split; [exact (meanFeature_spec y _ Hy Hw)|]. split; [reflexivity|].
  cbn [EE.featureProperties EE.dictGet EE.lookup String.eqb Ascii.eqb Bool.eqb].
  set (img := EE.mkImage _ _ _ _).
  assert (Hs : forall p, EE.sample "NDVI" img p =
                         if EE.contains region p then Some (-9999) else None).
  { intros p. unfold EE.sample; cbn. unfold EE.clipRaster. now rewrite Hr. }
  split.
  - intros m Hm. apply (regionalMean_bounds (-9999) (-9999)) in Hm; [lra|].
    intros p v. rewrite Hs. destruct (EE.contains region p); [|discriminate].
    intros H; injection H as <-. lra.
  - intros (p & Hin & Hp). unfold regionalMean, EE.meanList.
    destruct (flat_map _ _) eqn:E; [|eauto].
    exfalso. assert (Hv : In (-9999) (flat_map (fun p0 => EE.valid (EE.sample "NDVI" img p0))
                                               (grid region studyScale))).
    { apply in_flat_map. exists p. split; [assumption|]. rewrite Hs, Hp. cbn. auto. }
    rewrite E in Hv. contradiction.
Qed.

(** X21.  With a well-formed catalog and a region within [maxPixels],
    the mean NDVI reported for a year that has images lies between -1
    and 1. *)
Theorem regional_mean_range (y : Z) (col : EE.ImageCollection) :
  catalogOK -> withinMaxPixels ->
  collectionForYear y = OK col -> col <> [] ->
  exists img f,
    yearlyImage y = OK img /\ meanFeature img = OK f /\
    forall m, EE.dictGet "meanNDVI" (EE.featureProperties f) = Some m ->
              -1 <= m /\ m <= 1.
Proof.
  intros Hc Hw Hcol Hne. destruct (collectionForYear_total y Hc) as (col' & Hcol' & Hb).
  rewrite Hcol in Hcol'. injection Hcol' as <-.
  destruct (yearlyImage_spec y col Hcol) as (r & Hy & Hr).
  eexists; eexists. split; [exact Hy|].
  split; [exact (meanFeature_spec y _ Hy Hw)|].
  cbn [EE.featureProperties EE.dictGet EE.lookup String.eqb Ascii.eqb Bool.eqb].
  intros m. apply regionalMean_bounds. intros p v.
  unfold EE.sample; cbn. unfold EE.clipRaster.
  destruct (EE.contains region p); [|discriminate]. rewrite Hr.
  destruct col as [|i col']; [contradiction Hne; reflexivity|].
  intros H. apply (medianList_bounds (-1) 1) in H; [assumption|].
  apply ndviAt_Forall. eapply Forall_impl; [|exact Hb]. intros img Hi w Hw'. eauto.
Qed.

Lemma signed_areas_bound (sl : EE.Image) :
  (forall p, 0 <= pixelAreaAt p) ->
  0 <= areaWhere positive sl /\ 0 <= areaWhere negative sl /\
  areaWhere positive sl + areaWhere negative sl <= regionArea.
Proof.
  intros Ha. unfold areaWhere, regionArea.
  induction (grid region studyScale) as [|p l (IH1 & IH2 & IH3)].
  - cbn. repeat split; discriminate.
  - cbn [filter map]. rewrite Qsum_cons. pose proof (Ha p) as Hp.
    destruct (EE.sample "NDVI_slope_per_year" sl p) as [s|].
    + destruct (positive s) eqn:Ep; destruct (negative s) eqn:En;
        cbn [map]; rewrite ?Qsum_cons.
      * apply positive_iff in Ep. apply negative_iff in En. lra.
      * repeat split; lra.
      * repeat split; lra.
      * repeat split; lra.
    + repeat split; lra.
Qed.

(** X22.  When no pixel has a negative area and the region is within
    [maxPixels], the two printed areas are not negative and together
    do not exceed the area of the region: no pixel is counted both as
    a positive and as a negative trend. *)
Theorem signed_areas_within_region (yc : EE.ImageCollection) :
  (forall p, 0 <= pixelAreaAt p) ->
  yearCollection = OK yc -> withinMaxPixels ->
  exists pos neg,
    areaPosTrend = OK [("NDVI_slope_per_year", Some pos)] /\
    areaNegTrend = OK [("NDVI_slope_per_year", Some neg)] /\
    0 <= pos /\ 0 <= neg /\ pos + neg <= regionArea.
Proof.
  intros Ha Hyc Hw.
  destruct (slope_spec yc Hyc) as (f & s0 & a & sl & _ & _ & _ & Hsl & _ & _ & Hn & _).
  destruct (area_spec positive sl Hn Hw) as (pos & Hpos & Epos).
  destruct (area_spec negative sl Hn Hw) as (neg & Hneg & Eneg).
  destruct (signed_areas_bound sl Ha) as (H1 & H2 & H3).
  exists pos, neg. split; [unfold areaPosTrend; rewrite Hsl; exact Hpos|].
  split; [unfold areaNegTrend; rewrite Hsl; exact Hneg|].
  rewrite Epos, Eneg. auto.
Qed.


End Script.

(* ================================================================== *)
(** ** The statements on the example catalog *)

Lemma example_withinMaxPixels : withinMaxPixels Example.grid.
Proof. unfold withinMaxPixels, maxPixels. simpl. lia. Defined.

Lemma example_yearCollection :
  { yc | yearCollection Example.catalog = OK yc }.
Proof. eexists. vm_compute. reflexivity. Defined.

Lemma example_catalogOK : catalogOK Example.catalog.
Proof. reflexivity. Defined.

Lemma example_collection_2018 :
  { col | collectionForYear Example.catalog 2018 = OK col /\ col <> [] }.
Proof. eexists. split; [vm_compute; reflexivity | discriminate]. Defined.

Lemma example_collection_2020 : collectionForYear Example.catalog 2020 = OK [].
Proof. vm_compute. reflexivity. Defined.

Lemma example_2020_in_years : In 2020%Z years.
Proof. simpl. auto. Defined.

Lemma example_full_yearCollection :
  { yc | yearCollection Example.fullCatalog = OK yc }.
Proof.
  destruct (yearCollection Example.fullCatalog) as [yc|e] eqn:E.
  - exists yc. reflexivity.
  - exfalso.
    assert (H : match yearCollection Example.fullCatalog with
                | OK _ => true
                | Err _ => false
                end = true) by (vm_compute; reflexivity).
    rewrite E in H. discriminate H.
Defined.

Lemma Qred_eq (m r : Q) : Qred m = r -> m == r.
Proof. intros <-. symmetry. apply Qred_correct. Qed.

(** *** The script run on the example *)

Example counts_on_example :
  counts Example.catalog = OK [2; 1; 0; 0; 0; 0]%Z.
Proof. reflexivity. Qed.

(** In 2018 the west sees both scenes (NDVI 1/2 and 1/3), the east
    only the second one, the first being masked there. *)
Example ndvi_2018_on_example :
  fmap (fun img => map (fun p => option_map Qred (EE.sample "NDVI" img p))
                       [Example.pW; Example.pE; Example.pOut])
       (yearlyImage Example.catalog 2018)
  = OK [Some (5 # 12); Some (1 # 3); None].
Proof. vm_compute. reflexivity. Qed.

Example ndvi_2020_on_example :
  fmap (fun img => map (fun p => EE.sample "NDVI" img p) [Example.pW; Example.pOut])
       (yearlyImage Example.catalog 2020)
  = OK [Some (-9999); None].
Proof. vm_compute. reflexivity. Qed.

(** Four of the six years have no image: the fit sees them as -9999
    and the reported slope is masked. *)
Example slope_on_example :
  (fmap (fun img => option_map Qred (EE.sample "NDVI_slope_per_year" img Example.pW))
        (slopeOfFit Example.catalog),
   fmap (fun img => EE.sample "NDVI_slope_per_year" img Example.pW)
        (slope Example.catalog))
  = (OK (Some (-959929 # 420)), OK None).
Proof. vm_compute. reflexivity. Qed.

Example maskL8SR_on_example :
  fmap (fun img => map (EE.sample "SR_B5" img) [Example.pW; Example.pE])
       (maskL8SR Example.imgL8)
  = OK [Some 20000; None].
Proof. vm_compute. reflexivity. Qed.

Example maskL8SR_on_sentinel :
  maskL8SR Example.imgA = Err "Image.select: band 'QA_PIXEL' not found".
Proof. reflexivity. Qed.

(** With a scene in each year the trend is 1/10 a year in the west
    and -1/10 a year in the east, and is reported as such. *)
Example trend_on_full_example :
  (fmap (fun f => map (fun p => option_map Qred (EE.sample "scale" f p))
                      [Example.pW; Example.pE])
        (fit Example.fullCatalog),
   fmap (fun sl => map (fun p => option_map Qred (EE.sample "NDVI_slope_per_year" sl p))
                       [Example.pW; Example.pE])
        (slope Example.fullCatalog))
  = (OK [Some (1 # 10); Some (-1 # 10)], OK [Some (1 # 10); Some (-1 # 10)]).
Proof. vm_compute. reflexivity. Qed.

Example ndvi_2018_on_full_example :
  fmap (fun img => map Qred (regionValues Example.grid img))
       (yearlyImage Example.fullCatalog 2018)
  = OK [1 # 10; 3 # 5].
Proof. vm_compute. reflexivity. Qed.

Example means_on_full_example :
  fmap (map (fun f => (EE.dictGet "year" (EE.featureProperties f),
                       option_map Qred (EE.dictGet "meanNDVI" (EE.featureProperties f)))))
       (meanPerYearFC Example.fullCatalog Example.grid Example.bestEffortScale)
  = OK [(Some 2018, Some (7 # 20)); (Some 2019, Some (7 # 20));
        (Some 2020, Some (7 # 20)); (Some 2021, Some (7 # 20));
        (Some 2022, Some (7 # 20)); (Some 2023, Some (7 # 20))].
Proof. vm_compute. reflexivity. Qed.

(** One pixel of area 100 on each side. *)
Example areas_on_full_example :
  (fmap (map (fun kv => (fst kv, option_map Qred (snd kv))))
        (areaPosTrend Example.fullCatalog Example.grid Example.bestEffortScale
                      Example.pixelAreaAt),
   fmap (map (fun kv => (fst kv, option_map Qred (snd kv))))
        (areaNegTrend Example.fullCatalog Example.grid Example.bestEffortScale
                      Example.pixelAreaAt))
  = (OK [("NDVI_slope_per_year", Some 100)], OK [("NDVI_slope_per_year", Some 100)]).
Proof. vm_compute. reflexivity. Qed.

Lemma example_ndvi_2018 :
  { col | collectionForYear Example.catalog 2018 = OK col /\ col <> [] /\
          map Qred (ndviAt col Example.pW) = [1 # 2; 1 # 3] }.
Proof.
  eexists. split; [vm_compute; reflexivity|]. split; [discriminate|].
  vm_compute. reflexivity.
Defined.

Lemma yearly_ndvi_is_clipped_median_witness :
  exists col img m,
    collectionForYear Example.catalog 2018 = OK col /\ col <> [] /\
    yearlyImage Example.catalog 2018 = OK img /\
    EE.sample "NDVI" img Example.pW = Some m /\
    isMedianOf m (ndviAt col Example.pW) /\ m == 5 # 12.
Proof.
  destruct example_ndvi_2018 as (col & E & Hne & Hv).
  destruct (yearly_ndvi_is_clipped_median Example.catalog 2018 col E Hne)
    as (img & Hy & _ & _ & _ & Hex & _).
  destruct (Hex Example.pW) as (m & Hm & Hmed); [reflexivity | |].
  { intros H0. rewrite H0 in Hv. discriminate Hv. }
  exists col, img, m. repeat (split; [assumption|]).
  pose proof ndvi_2018_on_example as Hc. rewrite Hy in Hc.
  cbn [fmap bind map] in Hc. rewrite Hm in Hc. cbn [option_map] in Hc.
  apply Qred_eq. congruence.
Defined.

Lemma slope_is_least_squares_trend_witness :
  exists yc f sl v b,
    yearCollection Example.fullCatalog = OK yc /\
    fit Example.fullCatalog = OK f /\ slope Example.fullCatalog = OK sl /\
    EE.sample "NDVI_slope_per_year" sl Example.pW = Some v /\
    EE.sample "scale" f Example.pW = Some v /\ v == 1 # 10 /\
    forall a' b', sse (trendPoints yc Example.pW) v b <= sse (trendPoints yc Example.pW) a' b'.
Proof.
  destruct example_full_yearCollection as (yc & E).
  destruct (slope_is_least_squares_trend Example.fullCatalog yc E)
    as (f & s0 & sl & Hf & _ & Hsl & _ & Hp).
  destruct (Hp Example.pW) as (_ & _ & Hls & _ & Hfw & _ & _).
  pose proof trend_on_full_example as Hc. rewrite Hf, Hsl in Hc.
  cbn [fmap bind map] in Hc.
  destruct (EE.sample "NDVI_slope_per_year" sl Example.pW) as [v|] eqn:Hv;
    [|discriminate Hc].
  pose proof (Hfw v Logic.eq_refl) as Hscale.
  destruct (Hls v Hscale) as (b & _ & Hmin).
  exists yc, f, sl, v, b. repeat (split; [assumption|]).
  split; [|exact Hmin]. apply Qred_eq. cbn [option_map] in Hc. congruence.
Defined.

Lemma region_is_used_throughout_witness :
  (exists img,
      yearlyImage Example.catalog 2018 = OK img /\
      EE.footprint img = Some (EE.Rectangle 88.35 23.05 88.55 23.35) /\
      EE.sample "NDVI" img Example.pOut = None) /\
  (exists d sl m,
      areaPosTrend Example.fullCatalog Example.grid Example.bestEffortScale
                   Example.pixelAreaAt = OK d /\
      slope Example.fullCatalog = OK sl /\
      EE.multiply (EE.gt 0 sl) (pixelArea Example.pixelAreaAt) = OK m /\
      d = EE.reducePixels EE.Reducer.sum
            (Example.grid (EE.Rectangle 88.35 23.05 88.55 23.35) studyScale) m).
Proof.
  destruct (region_is_used_throughout Example.catalog Example.grid
              Example.bestEffortScale Example.pixelAreaAt) as (_ & _ & _ & Hclip & _).
  destruct (region_is_used_throughout Example.fullCatalog Example.grid
              Example.bestEffortScale Example.pixelAreaAt)
    as (_ & _ & _ & _ & _ & Hpos & _ & Hscale).
  split.
  - assert (E : { img | yearlyImage Example.catalog 2018 = OK img }).
    { eexists. vm_compute. reflexivity. }
    destruct E as (img & E). exists img. split; [exact E|].
    destruct (Hclip 2018%Z img E) as (Hf & Hout). split; [exact Hf|].
    apply Hout. reflexivity.
  - pose proof areas_on_full_example as Hc.
    destruct (areaPosTrend Example.fullCatalog Example.grid Example.bestEffortScale
                Example.pixelAreaAt) as [d|e] eqn:Hd; [|discriminate Hc].
    destruct (Hpos d Logic.eq_refl) as (sl & m & Hsl & Hm & Heq).
    exists d, sl, m. split; [reflexivity|]. repeat (split; [assumption|]).
    rewrite Hscale in Heq; [exact Heq|]. exact example_withinMaxPixels.
Defined.

Lemma mean_ndvi_per_year_is_reported_witness :
  exists yc fc c f m,
    yearCollection Example.fullCatalog = OK yc /\
    meanPerYearFC Example.fullCatalog Example.grid Example.bestEffortScale = OK fc /\
    chart Example.fullCatalog Example.grid Example.bestEffortScale = OK c /\
    In f fc /\
    EE.dictGet "year" (EE.featureProperties f) = Some 2018 /\
    EE.dictGet "meanNDVI" (EE.featureProperties f) = Some m /\ m == 7 # 20.
Proof.
  destruct example_full_yearCollection as (yc & E).
  destruct (mean_ndvi_per_year_is_reported Example.fullCatalog Example.grid
              Example.bestEffortScale Example.pixelAreaAt yc E example_withinMaxPixels)
    as (fc & c & Hfc & Hc & _ & _ & _ & _ & _ & _ & _ & Hmean).
  pose proof (yearCollection_Forall2 Example.fullCatalog yc E) as HF.
  destruct yc as [|img rest]; [inversion HF|].
  assert (Hy : yearlyImage Example.fullCatalog 2018 = OK img) by (inversion HF; assumption).
  destruct (Hmean 2018%Z img (or_introl Logic.eq_refl)) as (f & Hin & Hyear & Hm).
  pose proof ndvi_2018_on_full_example as Hv. rewrite Hy in Hv. cbn [fmap bind] in Hv.
  destruct (regionValues Example.grid img) as [|a [|b [|? ?]]]; try discriminate Hv.
  cbn [map] in Hv. injection Hv as Ha Hb. apply Qred_eq in Ha. apply Qred_eq in Hb.
  destruct (EE.dictGet "meanNDVI" (EE.featureProperties f)) as [m|] eqn:Hmv;
    [|contradiction Hm].
  exists (img :: rest), fc, c, f, m. repeat (split; [assumption|]).
  unfold isMeanOf in Hm. cbn [List.length fold_right] in Hm.
  change (inject_Z (Z.of_nat 2)) with 2 in Hm.
  assert (H2 : m * 2 == 7 # 10) by (rewrite Hm, Ha, Hb; reflexivity).
  lra.
Defined.

Lemma area_statistics_are_signed_sums_witness :
  exists sl pos neg,
    slope Example.fullCatalog = OK sl /\
    areaPosTrend Example.fullCatalog Example.grid Example.bestEffortScale
                 Example.pixelAreaAt
    = OK [("NDVI_slope_per_year", Some pos)] /\
    areaNegTrend Example.fullCatalog Example.grid Example.bestEffortScale
                 Example.pixelAreaAt
    = OK [("NDVI_slope_per_year", Some neg)] /\
    pos == areaWhere Example.grid Example.pixelAreaAt positive sl /\
    neg == areaWhere Example.grid Example.pixelAreaAt negative sl /\
    pos == 100 /\ neg == 100.
Proof.
  destruct example_full_yearCollection as (yc & E).
  destruct (area_statistics_are_signed_sums Example.fullCatalog Example.grid
              Example.bestEffortScale Example.pixelAreaAt yc E example_withinMaxPixels)
    as (sl & pos & neg & Hsl & Hp & Hn & _ & _ & Ep & En & _).
  exists sl, pos, neg. repeat (split; [assumption|]).
  pose proof areas_on_full_example as Hc. rewrite Hp, Hn in Hc.
  cbn [fmap bind map fst snd option_map] in Hc.
  split; apply Qred_eq; congruence.
Defined.

Lemma collectionForYear_pipeline_witness :
  inYear 2018 Example.imgA = true <-> 2018%Z = 2018%Z.
Proof.
  destruct (collectionForYear_pipeline Example.catalog 2018) as (_ & _ & Hd & _).
  apply (Hd Example.imgA (EE.mkDate 2018 6 15 1000)); [reflexivity | simpl; lia ..].
Defined.

Lemma maskS2SR_never_fails_witness :
  exists out,
    maskS2SR Example.imgPlain = OK out /\
    forall b p, EE.sample b out p = EE.sample b Example.imgPlain p.
Proof.
  destruct (maskS2SR_never_fails Example.imgPlain) as (_ & _ & _ & H).
  destruct (H Logic.eq_refl Logic.eq_refl Logic.eq_refl) as (m & out & _ & _ & Ho & Hs).
  exists out. split; assumption.
Defined.


Lemma nodata_years_mask_the_slope_witness :
  exists yc sl,
    yearCollection Example.catalog = OK yc /\ slope Example.catalog = OK sl /\
    List.length yc = 6%nat /\
    EE.sample "NDVI_slope_per_year" sl Example.pW = None.
Proof.
  assert (Hc : catalogOK Example.catalog) by reflexivity.
  destruct (nodata_years_mask_the_slope Example.catalog Hc) as (_ & yc & sl & Hyc & Hsl & Hl & Hp).
  exists yc, sl. repeat (split; [assumption|]).
  destruct (Hp Example.pW) as (Hiff & Hmask). apply Hmask. apply Hiff.
  assert (E : { img | yearlyImage Example.catalog 2020 = OK img }).
  { eexists. vm_compute. reflexivity. }
  destruct E as (img & E). exists img, (-9999). split; [|split].
  - unfold yearCollection, yearlyList, fmap in Hyc. apply bind_OK in Hyc.
    destruct Hyc as (l & Hl' & Heq). injection Heq as <-.
    eapply mapM_In_result; [exact Hl' | | exact E]. simpl; auto.
  - destruct (yearlyImage_inv _ _ _ E) as (col & r & Hcol & -> & Hr).
    assert (Hcol' : collectionForYear Example.catalog 2020 = OK []) by (vm_compute; reflexivity).
    rewrite Hcol' in Hcol. injection Hcol as <-.
    unfold EE.sample; cbn [EE.bands EE.lookup]. cbn. unfold EE.clipRaster.
    now rewrite Hr.
  - reflexivity.
Defined.




(** *** The catalog the script reads *)

Lemma mapM_ext {A B} (f g : A -> result B) (l : list A) :
  (forall a, f a = g a) -> mapM f l = mapM g l.
Proof.
  intros H. induction l as [|a l IH]; simpl; [reflexivity|]. now rewrite H, IH.
Qed.

Lemma collectionForYear_S2_only (c c' : string -> EE.ImageCollection) (y : Z) :
  c "COPERNICUS/S2_SR" = c' "COPERNICUS/S2_SR" ->
  collectionForYear c y = collectionForYear c' y.
Proof. intros H. unfold collectionForYear, sensor. now rewrite H. Qed.

Lemma yearCollection_S2_only (c c' : string -> EE.ImageCollection) :
  c "COPERNICUS/S2_SR" = c' "COPERNICUS/S2_SR" ->
  yearCollection c = yearCollection c'.
Proof.
  intros H. unfold yearCollection, yearlyList. f_equal. apply mapM_ext.
  intros y. unfold yearlyImage. now rewrite (collectionForYear_S2_only c c' y H).
Qed.

(** X23.  With the sensor set to S2 the script reads the Sentinel-2
    collection only: two catalogs that hold the same images under
    [COPERNICUS/S2_SR] give the same console, whatever they hold under
    the Landsat collection or any other name. *)
Theorem script_reads_sentinel_only
        (c c' : string -> EE.ImageCollection)
        (grid : EE.Geometry -> Q -> list EE.Point)
        (bestEffortScale : EE.Geometry -> Q -> Z -> Q)
        (pixelAreaAt : EE.Point -> Q) :
  c "COPERNICUS/S2_SR" = c' "COPERNICUS/S2_SR" ->
  console c grid bestEffortScale pixelAreaAt = console c' grid bestEffortScale pixelAreaAt.
Proof.
  intros H. pose proof (yearCollection_S2_only c c' H) as Hyc.
  assert (Hcounts : counts c = counts c').
  { unfold counts. apply mapM_ext. intros y.
    now rewrite (collectionForYear_S2_only c c' y H). }
  assert (Hsl : slope c = slope c').
  { unfold slope, slopeOfFit, anyValid, fit, paired. now rewrite Hyc. }
  unfold console, chart, meanPerYearFC, areaPosTrend, areaNegTrend.
  now rewrite Hcounts, Hyc, Hsl.
Qed.

Lemma script_reads_sentinel_only_witness :
  console Example.catalog Example.grid Example.bestEffortScale Example.pixelAreaAt
  = console Example.catalogWithLandsat Example.grid Example.bestEffortScale
            Example.pixelAreaAt.
Proof.
  exact (script_reads_sentinel_only Example.catalog Example.catalogWithLandsat
           Example.grid Example.bestEffortScale Example.pixelAreaAt Logic.eq_refl).
Defined.

(** *** The further properties on the example *)

Lemma quality_test_is_idle_without_SCL_witness :
  exists out,
    maskS2SR Example.imgQa = OK out /\
    forall b, EE.sample b out Example.pE = EE.sample b Example.imgQa Example.pE.
Proof.
  destruct (quality_test_is_idle_without_SCL Example.imgQa Logic.eq_refl)
    as (out & Ho & Hqa & _).
  exists out. split; [assumption|].
  apply (Hqa Logic.eq_refl Example.pE 1024). reflexivity.
Defined.

Lemma maskL8SR_only_removes_witness :
  exists out,
    maskL8SR Example.imgL8 = OK out /\
    EE.bandNames out = EE.bandNames Example.imgL8.
Proof.
  destruct (maskL8SR_only_removes Example.imgL8 Logic.eq_refl)
    as (out & out2 & Ho & _ & Hn & _).
  exists out. split; assumption.
Defined.

Lemma ndvi_band_value_witness :
  exists out,
    addNDVIBands Example.imgA = OK out /\
    forall v, EE.sample "NDVI" out Example.pW = Some v -> -1 <= v /\ v <= 1.
Proof.
  destruct (ndvi_band_value Example.imgA Logic.eq_refl) as (out & Ho & H).
  exists out. split; [assumption|]. intros v Hv.
  destruct (H Example.pW v Hv) as (a & b & _ & _ & _ & _ & _ & Hlo & Hhi). auto.
Defined.

Lemma masked_pixels_have_no_ndvi_witness :
  exists m out,
    maskS2SR Example.imgA = OK m /\ addNDVIBands m = OK out /\
    EE.sample "NDVI" out Example.pE = None.
Proof.
  destruct (masked_pixels_have_no_ndvi Example.imgA Logic.eq_refl)
    as (m & out & Hm & Ho & H).
  exists m, out. repeat (split; [assumption|]). rewrite H. reflexivity.
Defined.

Lemma mask_and_ndvi_commute_witness :
  exists out out',
    (exists m, maskS2SR Example.imgA = OK m /\ addNDVIBands m = OK out) /\
    (exists n, addNDVIBands Example.imgA = OK n /\ maskS2SR n = OK out') /\
    forall b p, EE.sample b out' p = EE.sample b out p.
Proof.
  destruct (mask_and_ndvi_commute Example.imgA Logic.eq_refl)
    as (m & out & n & out' & Hm & Ho & Hn & Ho' & _ & H).
  exists out, out'. split; [eauto|]. split; [eauto | exact H].
Defined.

Lemma years_do_not_overlap_witness : 2018%Z = 2018%Z.
Proof.
  destruct example_collection_2018 as (col & E & Hne).
  destruct col as [|i rest]; [contradiction Hne; reflexivity|].
  apply (years_do_not_overlap Example.catalog 2018 2018 (i :: rest) (i :: rest) i i E E);
    [left; reflexivity | left; reflexivity | reflexivity].
Defined.

Lemma counts_are_scene_counts_witness :
  counts Example.catalog =
  OK (map (fun y => Z.of_nat (List.length (scenesOfYear Example.catalog y))) years).
Proof. exact (counts_are_scene_counts Example.catalog example_catalogOK). Defined.

Lemma yearlyImage_shape_witness :
  exists img,
    yearlyImage Example.catalog 2018 = OK img /\
    EE.bandNames img = ["NDVI"; "t"] /\
    EE.sample "t" img Example.pOut = Some 2018.
Proof.
  assert (E : { img | yearlyImage Example.catalog 2018 = OK img }).
  { eexists. vm_compute. reflexivity. }
  destruct E as (img & E). exists img. split; [exact E|].
  destruct (yearlyImage_shape Example.catalog 2018 img E) as (Hn & Ht & _).
  split; [exact Hn | exact (Ht Example.pOut)].
Defined.

Lemma lastYear_is_yearEnd_witness :
  exists img,
    yearlyImage Example.catalog 2023 = OK img /\
    lastYear Example.catalog = OK (Some img).
Proof.
  destruct example_yearCollection as (yc & E).
  destruct (lastYear_is_yearEnd Example.catalog yc E) as (img & Hy & Hl & _).
  exists img. split; assumption.
Defined.

Lemma script_prints_no_error_witness :
  Forall (fun e => exists x, snd e = OK x)
         (console Example.catalog Example.grid Example.bestEffortScale Example.pixelAreaAt).
Proof.
  apply Forall_forall. intros [label v] Hin.
  exact (proj2 (script_prints_no_error Example.catalog Example.grid
                  Example.bestEffortScale Example.pixelAreaAt)
               example_catalogOK label v Hin).
Defined.

Lemma composite_ndvi_range_witness :
  exists img,
    yearlyImage Example.catalog 2018 = OK img /\
    forall p v, EE.sample "NDVI" img p = Some v -> -1 <= v /\ v <= 1.
Proof.
  destruct example_collection_2018 as (col & E & Hne).
  exact (composite_ndvi_range Example.catalog 2018 col example_catalogOK E Hne).
Defined.

Lemma slope_reported_iff_witness :
  exists yc f sl v m,
    yearCollection Example.fullCatalog = OK yc /\
    fit Example.fullCatalog = OK f /\ slope Example.fullCatalog = OK sl /\
    EE.sample "NDVI_slope_per_year" sl Example.pE = Some v /\
    EE.sample "scale" f Example.pE = Some v /\ v == (-1 # 10) /\
    EE.minList (ndviAt yc Example.pE) = Some m /\ ~ m == -9999.
Proof.
  destruct example_full_yearCollection as (yc & E).
  destruct (slope_reported_iff Example.fullCatalog yc E) as (f & sl & Hf & Hsl & H).
  pose proof trend_on_full_example as Hc. rewrite Hf, Hsl in Hc.
  cbn [fmap bind map] in Hc.
  destruct (EE.sample "NDVI_slope_per_year" sl Example.pE) as [v|] eqn:Hv;
    [|discriminate Hc].
  destruct (proj1 (H Example.pE v) Hv) as (Hscale & m & Hm & Hne).
  exists yc, f, sl, v, m. repeat (split; [assumption|]).
  split; [|split; assumption]. apply Qred_eq. cbn [option_map] in Hc. congruence.
Defined.

Lemma empty_year_masks_the_trend_witness :
  exists sl,
    slope Example.catalog = OK sl /\
    forall p, EE.sample "NDVI_slope_per_year" sl p = None.
Proof.
  exact (empty_year_masks_the_trend Example.catalog 2020 example_catalogOK
           example_2020_in_years example_collection_2020).
Defined.

Lemma empty_year_zeroes_the_areas_witness :
  exists pos neg,
    areaPosTrend Example.catalog Example.grid Example.bestEffortScale Example.pixelAreaAt
    = OK [("NDVI_slope_per_year", Some pos)] /\
    areaNegTrend Example.catalog Example.grid Example.bestEffortScale Example.pixelAreaAt
    = OK [("NDVI_slope_per_year", Some neg)] /\
    pos == 0 /\ neg == 0.
Proof.
  exact (empty_year_zeroes_the_areas Example.catalog Example.grid Example.bestEffortScale
           Example.pixelAreaAt 2020 example_catalogOK example_withinMaxPixels
           example_2020_in_years example_collection_2020).
Defined.

Lemma empty_year_mean_is_nodata_witness :
  exists img f m,
    yearlyImage Example.catalog 2020 = OK img /\
    meanFeature Example.grid Example.bestEffortScale img = OK f /\
    EE.dictGet "meanNDVI" (EE.featureProperties f) = Some m /\ m == -9999.
Proof.
  destruct (empty_year_mean_is_nodata Example.catalog Example.grid Example.bestEffortScale
              2020 example_withinMaxPixels example_collection_2020)
    as (img & f & Hy & Hf & _ & Hall & Hex).
  destruct Hex as (m & Hm).
  { exists Example.pW. split; [left; reflexivity | reflexivity]. }
  exists img, f, m. repeat (split; [assumption|]). exact (Hall m Hm).
Defined.

Lemma regional_mean_range_witness :
  exists img f,
    yearlyImage Example.catalog 2018 = OK img /\
    meanFeature Example.grid Example.bestEffortScale img = OK f /\
    forall m, EE.dictGet "meanNDVI" (EE.featureProperties f) = Some m ->
              -1 <= m /\ m <= 1.
Proof.
  destruct example_collection_2018 as (col & E & Hne).
  exact (regional_mean_range Example.catalog Example.grid Example.bestEffortScale 2018 col
           example_catalogOK example_withinMaxPixels E Hne).
Defined.

Lemma signed_areas_within_region_witness :
  exists pos neg,
    areaPosTrend Example.fullCatalog Example.grid Example.bestEffortScale
                 Example.pixelAreaAt
    = OK [("NDVI_slope_per_year", Some pos)] /\
    areaNegTrend Example.fullCatalog Example.grid Example.bestEffortScale
                 Example.pixelAreaAt
    = OK [("NDVI_slope_per_year", Some neg)] /\
    0 <= pos /\ 0 <= neg /\
    pos + neg <= regionArea Example.grid Example.pixelAreaAt /\
    pos == 100 /\ neg == 100 /\ regionArea Example.grid Example.pixelAreaAt == 200.
Proof.
  destruct example_full_yearCollection as (yc & E).
  assert (Ha : forall p, 0 <= Example.pixelAreaAt p) by (intros p; discriminate).
  destruct (signed_areas_within_region Example.fullCatalog Example.grid
              Example.bestEffortScale Example.pixelAreaAt yc Ha E example_withinMaxPixels)
    as (pos & neg & Hp & Hn & H1 & H2 & H3).
  exists pos, neg. repeat (split; [assumption|]).
  pose proof areas_on_full_example as Hc. rewrite Hp, Hn in Hc.
  cbn [fmap bind map fst snd option_map] in Hc.
  split; [apply Qred_eq; congruence|]. split; [apply Qred_eq; congruence | reflexivity].
Defined.

(** A scene without a near-infrared band gets no NDVI band. *)
Example missing_band_on_example :
  addNDVIBands Example.imgRed
  = Err "Image.normalizedDifference: band 'B8' not found".
Proof. reflexivity. Qed.
